(** * SeaExplorer: the simulation engine of [SeaquestGame]

    A shallow embedding of the update engine of the game component
    (the [useEffect] body of [SeaquestGame]): the entity records, the
    factories, the collision predicates, the ten update subsystems, the
    frame callback [gameLoop], [init], [endGame] and the key handlers.

    Numbers.  A JavaScript [number] is modelled as an exact rational [Q]
    (no rounding); fields that only ever hold integers (score, level,
    lives, health, combo counter, pickup values) are modelled as [Z].
    [Math.random], [Math.sin], [Math.cos], [Math.pow] and [Math.PI] are
    section variables: the engine is verified for every choice of them,
    with [Math.random] assumed to return values of the unit interval.

    Objects.  Every entity object is created by an object literal and
    pushed once, so an array never holds the same object twice.  The
    idiom [arr = arr.filter(o => o !== it)] inside [for (let it of arr)]
    therefore removes exactly the element being visited, while the
    iteration goes on over the original array: a loop is modelled as a
    pass over the list in which the body returns the mutated element or
    drops it ([forKeep]). *)

From Stdlib Require Import QArith Qminmax Qround ZArith List Bool String Lia Lqa.
Import ListNotations.
Open Scope Q_scope.

(** ** Comparisons on numbers *)

Definition Qleb (a b : Q) : bool := Qle_bool a b.
Definition Qltb (a b : Q) : bool := negb (Qle_bool b a).

(** ** Constants *)

Definition MAX_OXYGEN : Q := 300.
Definition COMBO_TIMEOUT_FRAMES : Q := 180.
Definition GRAVITY : Q := 0.02.
Definition PARTICLE_LIFESPAN : Q := 60.
Definition RAPID_FIRE_THRESHOLD_FACTOR : Q := 0.5.
Definition MAX_PLAYER_LIVES : Z := 10.
Definition ENEMY_SHARK_CHANCE : Q := 0.5.

(** The [<canvas width={1408} height={768}>] element of the component. *)
Definition canvas_width : Q := 1408.
Definition canvas_height : Q := 768.

(** ** Entity records *)

Inductive Color : Type :=
| Hex (code : string)
| Hsl (hue : Q) (saturation lightness : Z)
| Rgba (r g b : Z) (a : Q).

Inductive Facing : Type := FacingLeft | FacingRight.

Module GameObject.
Record t : Type := mk { x : Q; y : Q; width : Q; height : Q }.
End GameObject.

(** [interface Treasure]; [interface Heart] has the same members, and
    TypeScript types are structural, so one record serves both. *)
Module Treasure.
Record t : Type := mk {
  x : Q; y : Q; width : Q; height : Q;
  color : Color; value : Z; angle : Q; rotationSpeed : Q;
  dy : Q; targetY : Q; isFalling : bool }.
Definition set_y (v : Q) (o : t) : t :=
  mk (x o) v (width o) (height o) (color o) (value o) (angle o) (rotationSpeed o) (dy o) (targetY o) (isFalling o).
Definition set_angle (v : Q) (o : t) : t :=
  mk (x o) (y o) (width o) (height o) (color o) (value o) v (rotationSpeed o) (dy o) (targetY o) (isFalling o).
Definition set_dy (v : Q) (o : t) : t :=
  mk (x o) (y o) (width o) (height o) (color o) (value o) (angle o) (rotationSpeed o) v (targetY o) (isFalling o).
Definition set_isFalling (v : bool) (o : t) : t :=
  mk (x o) (y o) (width o) (height o) (color o) (value o) (angle o) (rotationSpeed o) (dy o) (targetY o) v.
Definition box (o : t) : GameObject.t := GameObject.mk (x o) (y o) (width o) (height o).
End Treasure.

Module Heart := Treasure.

Module Enemy.
Record t : Type := mk {
  x : Q; y : Q; width : Q; height : Q;
  color : Color; dx : Q; amplitude : Q; frequency : Q; offsetY : Q; baseY : Q;
  health : Z; maxHealth : Z; isShark : bool; aggressionLevel : Q }.
Definition set_x (v : Q) (o : t) : t :=
  mk v (y o) (width o) (height o) (color o) (dx o) (amplitude o) (frequency o) (offsetY o) (baseY o) (health o) (maxHealth o) (isShark o) (aggressionLevel o).
Definition set_y (v : Q) (o : t) : t :=
  mk (x o) v (width o) (height o) (color o) (dx o) (amplitude o) (frequency o) (offsetY o) (baseY o) (health o) (maxHealth o) (isShark o) (aggressionLevel o).
Definition set_dx (v : Q) (o : t) : t :=
  mk (x o) (y o) (width o) (height o) (color o) v (amplitude o) (frequency o) (offsetY o) (baseY o) (health o) (maxHealth o) (isShark o) (aggressionLevel o).
Definition set_offsetY (v : Q) (o : t) : t :=
  mk (x o) (y o) (width o) (height o) (color o) (dx o) (amplitude o) (frequency o) v (baseY o) (health o) (maxHealth o) (isShark o) (aggressionLevel o).
Definition set_health (v : Z) (o : t) : t :=
  mk (x o) (y o) (width o) (height o) (color o) (dx o) (amplitude o) (frequency o) (offsetY o) (baseY o) v (maxHealth o) (isShark o) (aggressionLevel o).
Definition box (o : t) : GameObject.t := GameObject.mk (x o) (y o) (width o) (height o).
End Enemy.

Module Crab.
Record t : Type := mk {
  x : Q; y : Q; width : Q; height : Q; dx : Q; color : Color; speed : Q }.
Definition set_x (v : Q) (o : t) : t := mk v (y o) (width o) (height o) (dx o) (color o) (speed o).
Definition set_dx (v : Q) (o : t) : t := mk (x o) (y o) (width o) (height o) v (color o) (speed o).
Definition box (o : t) : GameObject.t := GameObject.mk (x o) (y o) (width o) (height o).
End Crab.

Module OxygenBubble.
Record t : Type := mk {
  x : Q; y : Q; radius : Q; speed : Q; color : Color;
  oxygenAmount : Q; offset : Q; isLarge : bool; pulse : option Q }.
Definition set_x (v : Q) (o : t) : t :=
  mk v (y o) (radius o) (speed o) (color o) (oxygenAmount o) (offset o) (isLarge o) (pulse o).
Definition set_y (v : Q) (o : t) : t :=
  mk (x o) v (radius o) (speed o) (color o) (oxygenAmount o) (offset o) (isLarge o) (pulse o).
Definition set_radius (v : Q) (o : t) : t :=
  mk (x o) (y o) v (speed o) (color o) (oxygenAmount o) (offset o) (isLarge o) (pulse o).
Definition set_offset (v : Q) (o : t) : t :=
  mk (x o) (y o) (radius o) (speed o) (color o) (oxygenAmount o) v (isLarge o) (pulse o).
Definition set_pulse (v : option Q) (o : t) : t :=
  mk (x o) (y o) (radius o) (speed o) (color o) (oxygenAmount o) (offset o) (isLarge o) v.
End OxygenBubble.

Module Harpoon.
Record t : Type := mk {
  x : Q; y : Q; dx : Q; dy : Q; length : Q; width : Q; angle : Q; lifespan : Q }.
Definition set_x (v : Q) (o : t) : t :=
  mk v (y o) (dx o) (dy o) (length o) (width o) (angle o) (lifespan o).
Definition set_y (v : Q) (o : t) : t :=
  mk (x o) v (dx o) (dy o) (length o) (width o) (angle o) (lifespan o).
Definition set_lifespan (v : Q) (o : t) : t :=
  mk (x o) (y o) (dx o) (dy o) (length o) (width o) (angle o) v.
(** The [harpoonRect] literal of [updateEnemies] and [updateCrabs]. *)
Definition rect (o : t) : GameObject.t :=
  GameObject.mk (x o) (y o - width o / 2) (length o) (width o).
End Harpoon.

Module Particle.
Record t : Type := mk {
  x : Q; y : Q; dx : Q; dy : Q; radius : Q; color : Color;
  lifespan : Q; initialLifespan : Q }.
End Particle.

Module OxygenBonus.
Record t : Type := mk {
  x : Q; y : Q; width : Q; height : Q;
  value : Q; angle : Q; rotationSpeed : Q; dy : Q;
  fullyVisible : bool; alpha : Q; lifespan : Q }.
Definition set_y (v : Q) (o : t) : t :=
  mk (x o) v (width o) (height o) (value o) (angle o) (rotationSpeed o) (dy o) (fullyVisible o) (alpha o) (lifespan o).
Definition set_angle (v : Q) (o : t) : t :=
  mk (x o) (y o) (width o) (height o) (value o) v (rotationSpeed o) (dy o) (fullyVisible o) (alpha o) (lifespan o).
Definition set_fullyVisible (v : bool) (o : t) : t :=
  mk (x o) (y o) (width o) (height o) (value o) (angle o) (rotationSpeed o) (dy o) v (alpha o) (lifespan o).
Definition set_alpha (v : Q) (o : t) : t :=
  mk (x o) (y o) (width o) (height o) (value o) (angle o) (rotationSpeed o) (dy o) (fullyVisible o) v (lifespan o).
Definition set_lifespan (v : Q) (o : t) : t :=
  mk (x o) (y o) (width o) (height o) (value o) (angle o) (rotationSpeed o) (dy o) (fullyVisible o) (alpha o) v.
Definition box (o : t) : GameObject.t := GameObject.mk (x o) (y o) (width o) (height o).
End OxygenBonus.

Module Diver.
Record t : Type := mk {
  x : Q; y : Q; width : Q; height : Q;
  speed : Q; baseSpeed : Q; dx : Q; dy : Q; color : Color;
  oxygenDepletionRate : Q; size : Q;
  canFire : bool; weaponCooldown : Q; weaponCooldownMax : Q;
  facingDirection : Facing;
  comboCounter : Z; comboTimer : Q;
  isShieldActive : bool; shieldTimer : Q }.
Definition set_x (v : Q) (o : t) : t :=
  mk v (y o) (width o) (height o) (speed o) (baseSpeed o) (dx o) (dy o) (color o) (oxygenDepletionRate o) (size o) (canFire o) (weaponCooldown o) (weaponCooldownMax o) (facingDirection o) (comboCounter o) (comboTimer o) (isShieldActive o) (shieldTimer o).
Definition set_y (v : Q) (o : t) : t :=
  mk (x o) v (width o) (height o) (speed o) (baseSpeed o) (dx o) (dy o) (color o) (oxygenDepletionRate o) (size o) (canFire o) (weaponCooldown o) (weaponCooldownMax o) (facingDirection o) (comboCounter o) (comboTimer o) (isShieldActive o) (shieldTimer o).
Definition set_width (v : Q) (o : t) : t :=
  mk (x o) (y o) v (height o) (speed o) (baseSpeed o) (dx o) (dy o) (color o) (oxygenDepletionRate o) (size o) (canFire o) (weaponCooldown o) (weaponCooldownMax o) (facingDirection o) (comboCounter o) (comboTimer o) (isShieldActive o) (shieldTimer o).
Definition set_height (v : Q) (o : t) : t :=
  mk (x o) (y o) (width o) v (speed o) (baseSpeed o) (dx o) (dy o) (color o) (oxygenDepletionRate o) (size o) (canFire o) (weaponCooldown o) (weaponCooldownMax o) (facingDirection o) (comboCounter o) (comboTimer o) (isShieldActive o) (shieldTimer o).
Definition set_speed (v : Q) (o : t) : t :=
  mk (x o) (y o) (width o) (height o) v (baseSpeed o) (dx o) (dy o) (color o) (oxygenDepletionRate o) (size o) (canFire o) (weaponCooldown o) (weaponCooldownMax o) (facingDirection o) (comboCounter o) (comboTimer o) (isShieldActive o) (shieldTimer o).
Definition set_dx (v : Q) (o : t) : t :=
  mk (x o) (y o) (width o) (height o) (speed o) (baseSpeed o) v (dy o) (color o) (oxygenDepletionRate o) (size o) (canFire o) (weaponCooldown o) (weaponCooldownMax o) (facingDirection o) (comboCounter o) (comboTimer o) (isShieldActive o) (shieldTimer o).
Definition set_dy (v : Q) (o : t) : t :=
  mk (x o) (y o) (width o) (height o) (speed o) (baseSpeed o) (dx o) v (color o) (oxygenDepletionRate o) (size o) (canFire o) (weaponCooldown o) (weaponCooldownMax o) (facingDirection o) (comboCounter o) (comboTimer o) (isShieldActive o) (shieldTimer o).
Definition set_oxygenDepletionRate (v : Q) (o : t) : t :=
  mk (x o) (y o) (width o) (height o) (speed o) (baseSpeed o) (dx o) (dy o) (color o) v (size o) (canFire o) (weaponCooldown o) (weaponCooldownMax o) (facingDirection o) (comboCounter o) (comboTimer o) (isShieldActive o) (shieldTimer o).
Definition set_size (v : Q) (o : t) : t :=
  mk (x o) (y o) (width o) (height o) (speed o) (baseSpeed o) (dx o) (dy o) (color o) (oxygenDepletionRate o) v (canFire o) (weaponCooldown o) (weaponCooldownMax o) (facingDirection o) (comboCounter o) (comboTimer o) (isShieldActive o) (shieldTimer o).
Definition set_canFire (v : bool) (o : t) : t :=
  mk (x o) (y o) (width o) (height o) (speed o) (baseSpeed o) (dx o) (dy o) (color o) (oxygenDepletionRate o) (size o) v (weaponCooldown o) (weaponCooldownMax o) (facingDirection o) (comboCounter o) (comboTimer o) (isShieldActive o) (shieldTimer o).
Definition set_weaponCooldown (v : Q) (o : t) : t :=
  mk (x o) (y o) (width o) (height o) (speed o) (baseSpeed o) (dx o) (dy o) (color o) (oxygenDepletionRate o) (size o) (canFire o) v (weaponCooldownMax o) (facingDirection o) (comboCounter o) (comboTimer o) (isShieldActive o) (shieldTimer o).
Definition set_weaponCooldownMax (v : Q) (o : t) : t :=
  mk (x o) (y o) (width o) (height o) (speed o) (baseSpeed o) (dx o) (dy o) (color o) (oxygenDepletionRate o) (size o) (canFire o) (weaponCooldown o) v (facingDirection o) (comboCounter o) (comboTimer o) (isShieldActive o) (shieldTimer o).
Definition set_facingDirection (v : Facing) (o : t) : t :=
  mk (x o) (y o) (width o) (height o) (speed o) (baseSpeed o) (dx o) (dy o) (color o) (oxygenDepletionRate o) (size o) (canFire o) (weaponCooldown o) (weaponCooldownMax o) v (comboCounter o) (comboTimer o) (isShieldActive o) (shieldTimer o).
Definition set_comboCounter (v : Z) (o : t) : t :=
  mk (x o) (y o) (width o) (height o) (speed o) (baseSpeed o) (dx o) (dy o) (color o) (oxygenDepletionRate o) (size o) (canFire o) (weaponCooldown o) (weaponCooldownMax o) (facingDirection o) v (comboTimer o) (isShieldActive o) (shieldTimer o).
Definition set_comboTimer (v : Q) (o : t) : t :=
  mk (x o) (y o) (width o) (height o) (speed o) (baseSpeed o) (dx o) (dy o) (color o) (oxygenDepletionRate o) (size o) (canFire o) (weaponCooldown o) (weaponCooldownMax o) (facingDirection o) (comboCounter o) v (isShieldActive o) (shieldTimer o).
Definition set_isShieldActive (v : bool) (o : t) : t :=
  mk (x o) (y o) (width o) (height o) (speed o) (baseSpeed o) (dx o) (dy o) (color o) (oxygenDepletionRate o) (size o) (canFire o) (weaponCooldown o) (weaponCooldownMax o) (facingDirection o) (comboCounter o) (comboTimer o) v (shieldTimer o).
Definition set_shieldTimer (v : Q) (o : t) : t :=
  mk (x o) (y o) (width o) (height o) (speed o) (baseSpeed o) (dx o) (dy o) (color o) (oxygenDepletionRate o) (size o) (canFire o) (weaponCooldown o) (weaponCooldownMax o) (facingDirection o) (comboCounter o) (comboTimer o) (isShieldActive o) v.
Definition box (o : t) : GameObject.t := GameObject.mk (x o) (y o) (width o) (height o).
End Diver.

(** [game.keys]: the record literal of the game instance has exactly
    these five properties. *)
Module Keys.
Record t : Type := mk {
  ArrowRight : bool; ArrowLeft : bool; ArrowUp : bool; ArrowDown : bool; Space : bool }.
Definition none : t := mk false false false false false.
End Keys.

(** ** The game instance ([gameInstance.current]) *)

Record Game : Type := mkGame {
  animationFrameId : option nat;
  gameStarted : bool;
  gameOver : bool;
  score : Z;
  oxygen : Q;
  level : Z;
  playerLives : Z;
  hearts : list Heart.t;
  treasures : list Treasure.t;
  enemies : list Enemy.t;
  crabs : list Crab.t;
  oxygenBubbles : list OxygenBubble.t;
  harpoons : list Harpoon.t;
  particles : list Particle.t;
  oxygenBonus : list OxygenBonus.t;
  oxygenGenerator : GameObject.t;
  diver : Diver.t;
  keys : Keys.t;
  lastUpdateTime : Q }.

Definition set_animationFrameId (v : option nat) (g : Game) : Game :=
  mkGame v (gameStarted g) (gameOver g) (score g) (oxygen g) (level g) (playerLives g) (hearts g) (treasures g) (enemies g) (crabs g) (oxygenBubbles g) (harpoons g) (particles g) (oxygenBonus g) (oxygenGenerator g) (diver g) (keys g) (lastUpdateTime g).
Definition set_gameStarted (v : bool) (g : Game) : Game :=
  mkGame (animationFrameId g) v (gameOver g) (score g) (oxygen g) (level g) (playerLives g) (hearts g) (treasures g) (enemies g) (crabs g) (oxygenBubbles g) (harpoons g) (particles g) (oxygenBonus g) (oxygenGenerator g) (diver g) (keys g) (lastUpdateTime g).
Definition set_gameOver (v : bool) (g : Game) : Game :=
  mkGame (animationFrameId g) (gameStarted g) v (score g) (oxygen g) (level g) (playerLives g) (hearts g) (treasures g) (enemies g) (crabs g) (oxygenBubbles g) (harpoons g) (particles g) (oxygenBonus g) (oxygenGenerator g) (diver g) (keys g) (lastUpdateTime g).
Definition set_score (v : Z) (g : Game) : Game :=
  mkGame (animationFrameId g) (gameStarted g) (gameOver g) v (oxygen g) (level g) (playerLives g) (hearts g) (treasures g) (enemies g) (crabs g) (oxygenBubbles g) (harpoons g) (particles g) (oxygenBonus g) (oxygenGenerator g) (diver g) (keys g) (lastUpdateTime g).
Definition set_oxygen (v : Q) (g : Game) : Game :=
  mkGame (animationFrameId g) (gameStarted g) (gameOver g) (score g) v (level g) (playerLives g) (hearts g) (treasures g) (enemies g) (crabs g) (oxygenBubbles g) (harpoons g) (particles g) (oxygenBonus g) (oxygenGenerator g) (diver g) (keys g) (lastUpdateTime g).
Definition set_level (v : Z) (g : Game) : Game :=
  mkGame (animationFrameId g) (gameStarted g) (gameOver g) (score g) (oxygen g) v (playerLives g) (hearts g) (treasures g) (enemies g) (crabs g) (oxygenBubbles g) (harpoons g) (particles g) (oxygenBonus g) (oxygenGenerator g) (diver g) (keys g) (lastUpdateTime g).
Definition set_playerLives (v : Z) (g : Game) : Game :=
  mkGame (animationFrameId g) (gameStarted g) (gameOver g) (score g) (oxygen g) (level g) v (hearts g) (treasures g) (enemies g) (crabs g) (oxygenBubbles g) (harpoons g) (particles g) (oxygenBonus g) (oxygenGenerator g) (diver g) (keys g) (lastUpdateTime g).
Definition set_hearts (v : list Heart.t) (g : Game) : Game :=
  mkGame (animationFrameId g) (gameStarted g) (gameOver g) (score g) (oxygen g) (level g) (playerLives g) v (treasures g) (enemies g) (crabs g) (oxygenBubbles g) (harpoons g) (particles g) (oxygenBonus g) (oxygenGenerator g) (diver g) (keys g) (lastUpdateTime g).
Definition set_treasures (v : list Treasure.t) (g : Game) : Game :=
  mkGame (animationFrameId g) (gameStarted g) (gameOver g) (score g) (oxygen g) (level g) (playerLives g) (hearts g) v (enemies g) (crabs g) (oxygenBubbles g) (harpoons g) (particles g) (oxygenBonus g) (oxygenGenerator g) (diver g) (keys g) (lastUpdateTime g).
Definition set_enemies (v : list Enemy.t) (g : Game) : Game :=
  mkGame (animationFrameId g) (gameStarted g) (gameOver g) (score g) (oxygen g) (level g) (playerLives g) (hearts g) (treasures g) v (crabs g) (oxygenBubbles g) (harpoons g) (particles g) (oxygenBonus g) (oxygenGenerator g) (diver g) (keys g) (lastUpdateTime g).
Definition set_crabs (v : list Crab.t) (g : Game) : Game :=
  mkGame (animationFrameId g) (gameStarted g) (gameOver g) (score g) (oxygen g) (level g) (playerLives g) (hearts g) (treasures g) (enemies g) v (oxygenBubbles g) (harpoons g) (particles g) (oxygenBonus g) (oxygenGenerator g) (diver g) (keys g) (lastUpdateTime g).
Definition set_oxygenBubbles (v : list OxygenBubble.t) (g : Game) : Game :=
  mkGame (animationFrameId g) (gameStarted g) (gameOver g) (score g) (oxygen g) (level g) (playerLives g) (hearts g) (treasures g) (enemies g) (crabs g) v (harpoons g) (particles g) (oxygenBonus g) (oxygenGenerator g) (diver g) (keys g) (lastUpdateTime g).
Definition set_harpoons (v : list Harpoon.t) (g : Game) : Game :=
  mkGame (animationFrameId g) (gameStarted g) (gameOver g) (score g) (oxygen g) (level g) (playerLives g) (hearts g) (treasures g) (enemies g) (crabs g) (oxygenBubbles g) v (particles g) (oxygenBonus g) (oxygenGenerator g) (diver g) (keys g) (lastUpdateTime g).
Definition set_particles (v : list Particle.t) (g : Game) : Game :=
  mkGame (animationFrameId g) (gameStarted g) (gameOver g) (score g) (oxygen g) (level g) (playerLives g) (hearts g) (treasures g) (enemies g) (crabs g) (oxygenBubbles g) (harpoons g) v (oxygenBonus g) (oxygenGenerator g) (diver g) (keys g) (lastUpdateTime g).
Definition set_oxygenBonus (v : list OxygenBonus.t) (g : Game) : Game :=
  mkGame (animationFrameId g) (gameStarted g) (gameOver g) (score g) (oxygen g) (level g) (playerLives g) (hearts g) (treasures g) (enemies g) (crabs g) (oxygenBubbles g) (harpoons g) (particles g) v (oxygenGenerator g) (diver g) (keys g) (lastUpdateTime g).
Definition set_oxygenGenerator (v : GameObject.t) (g : Game) : Game :=
  mkGame (animationFrameId g) (gameStarted g) (gameOver g) (score g) (oxygen g) (level g) (playerLives g) (hearts g) (treasures g) (enemies g) (crabs g) (oxygenBubbles g) (harpoons g) (particles g) (oxygenBonus g) v (diver g) (keys g) (lastUpdateTime g).
Definition set_diver (v : Diver.t) (g : Game) : Game :=
  mkGame (animationFrameId g) (gameStarted g) (gameOver g) (score g) (oxygen g) (level g) (playerLives g) (hearts g) (treasures g) (enemies g) (crabs g) (oxygenBubbles g) (harpoons g) (particles g) (oxygenBonus g) (oxygenGenerator g) v (keys g) (lastUpdateTime g).
Definition set_keys (v : Keys.t) (g : Game) : Game :=
  mkGame (animationFrameId g) (gameStarted g) (gameOver g) (score g) (oxygen g) (level g) (playerLives g) (hearts g) (treasures g) (enemies g) (crabs g) (oxygenBubbles g) (harpoons g) (particles g) (oxygenBonus g) (oxygenGenerator g) (diver g) v (lastUpdateTime g).
Definition set_lastUpdateTime (v : Q) (g : Game) : Game :=
  mkGame (animationFrameId g) (gameStarted g) (gameOver g) (score g) (oxygen g) (level g) (playerLives g) (hearts g) (treasures g) (enemies g) (crabs g) (oxygenBubbles g) (harpoons g) (particles g) (oxygenBonus g) (oxygenGenerator g) (diver g) (keys g) v.

(** [game.diver.f = ...]: an update of the diver object inside the game. *)
Definition upd_diver (f : Diver.t -> Diver.t) (g : Game) : Game := set_diver (f (diver g)) g.

(** ** The host: everything the engine touches outside the game object *)

Inductive SoundCmd : Type :=
| PlaySound (name : string)
| StopSound (name : string)
| PlayBackgroundMusic.

Inductive UiGameState : Type := UiStart | UiPlaying | UiOver.

(** [draws] counts the calls of [Math.random] so far; [sounds] logs the
    calls to the audio collaborator (latest first); [timeouts] holds the
    pending [setTimeout(() => generateEnemies(n), delay)] callbacks as
    pairs [(delay, n)]; [uiGameState] and [finalScore] are the React
    state written by [setUiGameState] and [setFinalScore];
    [frameRequests] counts the calls of [requestAnimationFrame], whose
    handles are 1, 2, ...; [cancelledFrames] logs [cancelAnimationFrame]. *)
Record Host : Type := mkHost {
  draws : nat;
  sounds : list SoundCmd;
  timeouts : list (Q * nat);
  uiGameState : UiGameState;
  finalScore : Z;
  frameRequests : nat;
  cancelledFrames : list nat }.

Definition set_draws (v : nat) (h : Host) : Host :=
  mkHost v (sounds h) (timeouts h) (uiGameState h) (finalScore h) (frameRequests h) (cancelledFrames h).
Definition set_sounds (v : list SoundCmd) (h : Host) : Host :=
  mkHost (draws h) v (timeouts h) (uiGameState h) (finalScore h) (frameRequests h) (cancelledFrames h).
Definition set_timeouts (v : list (Q * nat)) (h : Host) : Host :=
  mkHost (draws h) (sounds h) v (uiGameState h) (finalScore h) (frameRequests h) (cancelledFrames h).
Definition set_uiGameState (v : UiGameState) (h : Host) : Host :=
  mkHost (draws h) (sounds h) (timeouts h) v (finalScore h) (frameRequests h) (cancelledFrames h).
Definition set_finalScore (v : Z) (h : Host) : Host :=
  mkHost (draws h) (sounds h) (timeouts h) (uiGameState h) v (frameRequests h) (cancelledFrames h).
Definition set_frameRequests (v : nat) (h : Host) : Host :=
  mkHost (draws h) (sounds h) (timeouts h) (uiGameState h) (finalScore h) v (cancelledFrames h).
Definition set_cancelledFrames (v : list nat) (h : Host) : Host :=
  mkHost (draws h) (sounds h) (timeouts h) (uiGameState h) (finalScore h) (frameRequests h) v.

Record Sys : Type := mkSys { game : Game; host : Host }.

(** ** The state monad of the engine *)

Definition M (A : Type) : Type := Sys -> A * Sys.

Definition ret {A : Type} (a : A) : M A := fun s => (a, s).
Definition bind {A B : Type} (m : M A) (k : A -> M B) : M B :=
  fun s => let r := m s in k (fst r) (snd r).

Declare Scope engine_scope.
Delimit Scope engine_scope with engine.
Notation "x <- m ;; k" := (bind m (fun x => k))
  (at level 61, m at next level, right associativity) : engine_scope.
Notation "m ;; k" := (bind m (fun _ => k))
  (at level 61, right associativity) : engine_scope.
Open Scope engine_scope.

Definition exec {A : Type} (m : M A) (s : Sys) : Sys := snd (m s).
Definition eval {A : Type} (m : M A) (s : Sys) : A := fst (m s).

Definition getG : M Game := fun s => (game s, s).
Definition modG (f : Game -> Game) : M unit := fun s => (tt, mkSys (f (game s)) (host s)).
Definition modH (f : Host -> Host) : M unit := fun s => (tt, mkSys (game s) (f (host s))).
(** [game.diver.f = ...]. *)
Definition modD (f : Diver.t -> Diver.t) : M unit := modG (upd_diver f).
Definition when (b : bool) (m : M unit) : M unit := if b then m else ret tt.

(** [for (let i = 0; i < n; i++) body]. *)
Fixpoint repeatM (n : nat) (body : M unit) : M unit :=
  match n with
  | O => ret tt
  | S n' => body ;; repeatM n' body
  end.

(** [for (let it of arr) body], where the body mutates [it] in place and
    may remove it from [arr]: the elements that remain, in order. *)
Fixpoint forKeep {X : Type} (body : X -> M (option X)) (xs : list X) : M (list X) :=
  match xs with
  | [] => ret []
  | it :: rest =>
      r <- body it ;;
      rs <- forKeep body rest ;;
      ret (match r with Some it' => it' :: rs | None => rs end)
  end.

Definition playSound (name : string) : M unit :=
  modH (fun h => set_sounds (PlaySound name :: sounds h) h).
Definition stopSound (name : string) : M unit :=
  modH (fun h => set_sounds (StopSound name :: sounds h) h).
Definition playBackgroundMusic : M unit :=
  modH (fun h => set_sounds (PlayBackgroundMusic :: sounds h) h).
Definition setTimeout (count : nat) (delay : Q) : M unit :=
  modH (fun h => set_timeouts (timeouts h ++ [(delay, count)]) h).
Definition requestAnimationFrame : M nat :=
  fun s => let n := S (frameRequests (host s)) in
           (n, mkSys (game s) (set_frameRequests n (host s))).
Definition cancelAnimationFrame (id : nat) : M unit :=
  modH (fun h => set_cancelledFrames (id :: cancelledFrames h) h).

(** ** The engine *)

Section Engine.

(** [random n] is the value returned by the [n]-th call of [Math.random]
    (counted from 0); [sin], [cos], [pow] and [PI] stand for [Math.sin],
    [Math.cos], [Math.pow] and [Math.PI]. *)
Variable random : nat -> Q.
Variables sin cos : Q -> Q.
Variable pow : Q -> Q -> Q.
Variable PI : Q.

Definition mathRandom : M Q :=
  fun s => (random (draws (host s)),
            mkSys (game s) (set_draws (S (draws (host s))) (host s))).

(** [const scaleFactor = deltaTime / (1000 / 60)], the first line of
    every update function. *)
Definition scaleOf (deltaTime : Q) : Q := deltaTime / (1000 / 60).

(** *** Particle explosion *)

Definition createExplosion (x y : Q) (color : Color) : M unit :=
  r <- mathRandom ;;
  let particleCount := Z.to_nat (10 + Qfloor (r * 10)) in
  repeatM particleCount (
    r1 <- mathRandom ;;
    let angle := r1 * PI * 2 in
    r2 <- mathRandom ;;
    let speed := 1 + r2 * 3 in
    r3 <- mathRandom ;;
    let radius := 1 + r3 * 2 in
    modG (fun g => set_particles (particles g ++
      [Particle.mk x y (cos angle * speed) (sin angle * speed) radius color
                   PARTICLE_LIFESPAN PARTICLE_LIFESPAN]) g)).

(** *** Generation functions *)

Definition generateHeart (position : Q * Q) : M unit :=
  g <- getG ;;
  if (MAX_PLAYER_LIVES <=? playerLives g)%Z then ret tt else
  let startX := fst position in
  let startY := snd position in
  r1 <- mathRandom ;;
  let stopY := canvas_height - 25 - r1 * 10 in
  r2 <- mathRandom ;;
  r3 <- mathRandom ;;
  modG (fun g => set_hearts (hearts g ++
    [Heart.mk (Qmax 10 (Qmin (canvas_width - 10) startX)) startY 20 18
              (Hex "#ff3377") 1 (r2 * PI * 2) ((r3 - 0.5) * 0.05)
              0.3 stopY true]) g).

Definition generateTreasures (count : nat) (position : option (Q * Q)) : M unit :=
  repeatM count (
    startX <- match position with
              | Some p => ret (fst p)
              | None => r <- mathRandom ;; ret (r * (canvas_width - 20))
              end ;;
    let startY := match position with Some p => snd p | None => 50 end in
    r1 <- mathRandom ;;
    let stopY := canvas_height - 25 - r1 * 10 in
    r2 <- mathRandom ;;
    r3 <- mathRandom ;;
    r4 <- mathRandom ;;
    modG (fun g => set_treasures (treasures g ++
      [Treasure.mk (Qmax 10 (Qmin (canvas_width - 10) startX)) startY 16 20
                   (Hex "#ffff00") (15 + Qfloor (r2 * 10)) (r3 * PI * 2)
                   ((r4 - 0.5) * 0.1) 0.5 stopY true]) g)).

Definition generateEnemies (count : nat) : M unit :=
  g <- getG ;;
  if (2 + level g / 2 <? Z.of_nat (List.length (enemies g)))%Z then ret tt else
  repeatM count (
    r1 <- mathRandom ;;
    let isSmallSize := Qltb r1 0.5 in
    isShark <- (if isSmallSize
                then r <- mathRandom ;; ret (Qltb r ENEMY_SHARK_CHANCE)
                else ret false) ;;
    r2 <- mathRandom ;;
    let size := if isShark then 35 + r2 * 15
                else if isSmallSize then 20 + r2 * 10 else 30 + r2 * 15 in
    r3 <- mathRandom ;;
    let startY := 50 + r3 * (canvas_height - 150) in
    let maxHealth : Z := (if isShark then 3 else if negb isSmallSize then 2 else 1)%Z in
    r4 <- mathRandom ;;
    let color := if isShark then Hsl (r4 * 20 + 10) 70 40
                 else Hsl (r4 * 60 + 180) 70 60 in
    r5 <- mathRandom ;;
    let baseSpeed := if isShark then 1.5 + r5 * 1.5 else 1 + r5 * 1 in
    g <- getG ;;
    let levelFactor := 1 + (inject_Z (level g) - 1) * 0.2 in
    let aggressionLevel := if isShark then 1 + (inject_Z (level g) - 1) * 0.3 else 1 in
    r6 <- mathRandom ;;
    let startFromLeft := Qltb r6 0.5 in
    let xPosition := if startFromLeft then - size else canvas_width + size in
    let direction : Q := if startFromLeft then 1 else -1 in
    r7 <- mathRandom ;;
    r8 <- mathRandom ;;
    r9 <- mathRandom ;;
    modG (fun g => set_enemies (enemies g ++
      [Enemy.mk xPosition startY size (size * 0.6) color
                ((baseSpeed * levelFactor) * direction)
                (5 + r7 * 15) (0.001 + r8 * 0.003) (r9 * PI * 2) startY
                maxHealth maxHealth isShark aggressionLevel]) g)).

Definition generateOxygenBubbles (count : nat) : M unit :=
  repeatM count (
    r1 <- mathRandom ;;
    let radius := 12 + r1 * 12 in
    r2 <- mathRandom ;;
    r3 <- mathRandom ;;
    r4 <- mathRandom ;;
    r5 <- mathRandom ;;
    modG (fun g => set_oxygenBubbles (oxygenBubbles g ++
      [OxygenBubble.mk
         (GameObject.x (oxygenGenerator g) + r2 * GameObject.width (oxygenGenerator g))
         (GameObject.y (oxygenGenerator g))
         radius (0.8 + r3 * 1.2) (Rgba 255 255 255 0.7)
         (15 + r4 * 20) (r5 * PI * 2) false None]) g)).

Definition generateLargeOxygenBubble : M unit :=
  r1 <- mathRandom ;;
  let radius := 30 + r1 * 15 in
  r2 <- mathRandom ;;
  r3 <- mathRandom ;;
  r4 <- mathRandom ;;
  r5 <- mathRandom ;;
  modG (fun g => set_oxygenBubbles (oxygenBubbles g ++
    [OxygenBubble.mk
       (GameObject.x (oxygenGenerator g) + GameObject.width (oxygenGenerator g) / 2
        + (r2 * 20 - 10))
       (GameObject.y (oxygenGenerator g))
       radius (0.6 + r3 * 0.6) (Rgba 100 200 255 0.8)
       (60 + r4 * 40) (r5 * PI * 2) true (Some 0)]) g).

Definition generateOxygenBonus : M unit :=
  r1 <- mathRandom ;;
  let x := 50 + r1 * (canvas_width - 100) in
  let y := canvas_height - 50 in
  r2 <- mathRandom ;;
  let bonus := OxygenBonus.mk x y 50 50 150 0 (0.01 + r2 * 0.02) (-0.8) false 0 800 in
  modG (fun g => set_oxygenBonus (oxygenBonus g ++ [bonus]) g) ;;
  playSound "hello".

Definition generateCrab : M unit :=
  r1 <- mathRandom ;;
  let startFromLeft := Qltb r1 0.5 in
  r2 <- mathRandom ;;
  let speed := 0.8 + r2 * 0.4 in
  let direction : Q := if startFromLeft then 1 else -1 in
  let width := 40 in
  let height := 25 in
  let y := canvas_height - height - 5 in
  modG (fun g => set_crabs (crabs g ++
    [Crab.mk (if startFromLeft then - width else canvas_width) y width height
             (speed * direction) (Hex "#ff5533") speed]) g).

(** *** Collision detection

    [isDiver] is the test [obj1 === game.diver]; [isShark2] is
    [(obj2 as Enemy)?.isShark], which is [undefined] (falsy) for every
    second argument that is not an enemy. *)

Definition isColliding (isDiver : bool) (obj1 obj2 : GameObject.t) (isShark2 : bool) : bool :=
  let extraMargin : Q := if isShark2 then 1 else 0 in
  let widthReduction := GameObject.width obj1 * 0.1 in
  let heightReduction := GameObject.height obj1 * 0.1 in
  let obj1Width := if isDiver then GameObject.width obj1 - widthReduction else GameObject.width obj1 in
  let obj1Height := if isDiver then GameObject.height obj1 - heightReduction else GameObject.height obj1 in
  let obj1X := if isDiver then GameObject.x obj1 + widthReduction / 2 else GameObject.x obj1 in
  let obj1Y := if isDiver then GameObject.y obj1 + heightReduction / 2 else GameObject.y obj1 in
  Qltb obj1X (GameObject.x obj2 + GameObject.width obj2 + extraMargin) &&
  Qltb (GameObject.x obj2 - extraMargin) (obj1X + obj1Width) &&
  Qltb obj1Y (GameObject.y obj2 + GameObject.height obj2 + extraMargin) &&
  Qltb (GameObject.y obj2 - extraMargin) (obj1Y + obj1Height).

Definition isCollidingCircle (isDiver : bool) (obj : GameObject.t) (circle : OxygenBubble.t) : bool :=
  let widthReduction := GameObject.width obj * 0.1 in
  let heightReduction := GameObject.height obj * 0.1 in
  let objWidth := if isDiver then GameObject.width obj - widthReduction else GameObject.width obj in
  let objHeight := if isDiver then GameObject.height obj - heightReduction else GameObject.height obj in
  let objX := if isDiver then GameObject.x obj + widthReduction / 2 else GameObject.x obj in
  let objY := if isDiver then GameObject.y obj + heightReduction / 2 else GameObject.y obj in
  let closestX := Qmax objX (Qmin (OxygenBubble.x circle) (objX + objWidth)) in
  let closestY := Qmax objY (Qmin (OxygenBubble.y circle) (objY + objHeight)) in
  let distanceX := OxygenBubble.x circle - closestX in
  let distanceY := OxygenBubble.y circle - closestY in
  let distanceSquared := distanceX * distanceX + distanceY * distanceY in
  Qltb distanceSquared (OxygenBubble.radius circle * OxygenBubble.radius circle).

(** The first harpoon of the array whose rectangle hits the target, and
    the array without it: the [for (let harpoon of game.harpoons)] loops,
    which stop ([break]) at the first hit after removing that harpoon. *)
Fixpoint findHit (target : GameObject.t) (isShark : bool) (hs : list Harpoon.t)
  : option (Harpoon.t * list Harpoon.t) :=
  match hs with
  | [] => None
  | harpoon :: rest =>
      if isColliding false (Harpoon.rect harpoon) target isShark
      then Some (harpoon, rest)
      else match findHit target isShark rest with
           | Some (hit, rest') => Some (hit, harpoon :: rest')
           | None => None
           end
  end.

(** *** Combo bookkeeping: the statement pairs commented [// Update combo]
    and [// Reset combo] in the source. *)

Definition updateCombo (d : Diver.t) : Diver.t :=
  Diver.set_comboTimer COMBO_TIMEOUT_FRAMES
    (Diver.set_comboCounter (Diver.comboCounter d + 1) d).

Definition resetCombo (d : Diver.t) : Diver.t :=
  Diver.set_comboTimer 0 (Diver.set_comboCounter 0 d).

(** *** Player and weapon *)

Definition updateDiver (deltaTime : Q) : M unit :=
  let scaleFactor := scaleOf deltaTime in
  modD (fun d => Diver.set_dy (Diver.dy d - 0.02 * scaleFactor) d) ;;
  g <- getG ;;
  (if Keys.ArrowRight (keys g)
   then modD (fun d => Diver.set_facingDirection FacingRight (Diver.set_dx (Diver.speed d) d))
   else if Keys.ArrowLeft (keys g)
   then modD (fun d => Diver.set_facingDirection FacingLeft (Diver.set_dx (- Diver.speed d) d))
   else modD (fun d => Diver.set_dx (Diver.dx d * pow 0.9 scaleFactor) d)) ;;
  (if Keys.ArrowDown (keys g)
   then modD (fun d => Diver.set_dy (Diver.speed d) d)
   else if Keys.ArrowUp (keys g)
   then modD (fun d => Diver.set_dy (- Diver.speed d) d)
   else modD (fun d => Diver.set_dy (Diver.dy d * pow 0.9 scaleFactor) d)) ;;
  modD (fun d =>
    let d := Diver.set_x (Diver.x d + Diver.dx d * scaleFactor) d in
    let d := Diver.set_y (Diver.y d + Diver.dy d * scaleFactor) d in
    let d := Diver.set_x (Qmax 0 (Qmin (canvas_width - Diver.width d) (Diver.x d))) d in
    Diver.set_y (Qmax 0 (Qmin (canvas_height - Diver.height d) (Diver.y d))) d) ;;
  g <- getG ;;
  when (Qltb 0 (Diver.comboTimer (diver g))) (
    modD (fun d => Diver.set_comboTimer (Diver.comboTimer d - scaleFactor) d) ;;
    g <- getG ;;
    when (Qleb (Diver.comboTimer (diver g)) 0)
         (modD (fun d => Diver.set_comboTimer 0 (Diver.set_comboCounter 0 d)))) ;;
  g <- getG ;;
  when (Qltb 0 (Diver.shieldTimer (diver g))) (
    modD (fun d => Diver.set_shieldTimer (Diver.shieldTimer d - scaleFactor) d) ;;
    g <- getG ;;
    when (Qleb (Diver.shieldTimer (diver g)) 0)
         (modD (Diver.set_isShieldActive false))).

Definition fireHarpoon : M unit :=
  g <- getG ;;
  let d := diver g in
  let direction : Q := match Diver.facingDirection d with FacingRight => 1 | FacingLeft => -1 end in
  let speed := 10 in
  playSound "hit" ;;
  modG (fun g => set_harpoons (harpoons g ++
    [Harpoon.mk (match Diver.facingDirection d with
                 | FacingLeft => Diver.x d
                 | FacingRight => Diver.x d + Diver.width d
                 end)
                (Diver.y d + Diver.height d / 2)
                (direction * speed) 0 20 3
                (match Diver.facingDirection d with FacingRight => 0 | FacingLeft => PI end)
                60]) g).

(** The body of the [filter] callback of [updateWeaponSystem]: the
    motion of a harpoon, and the test that keeps it. *)
Definition harpoonMotion (scaleFactor : Q) (harpoon : Harpoon.t) : Harpoon.t :=
  let harpoon := Harpoon.set_x (Harpoon.x harpoon + Harpoon.dx harpoon * scaleFactor) harpoon in
  let harpoon := Harpoon.set_y (Harpoon.y harpoon + Harpoon.dy harpoon * scaleFactor) harpoon in
  Harpoon.set_lifespan (Harpoon.lifespan harpoon - scaleFactor) harpoon.

Definition harpoonActive (harpoon : Harpoon.t) : bool :=
  Qltb 0 (Harpoon.lifespan harpoon) &&
  Qltb (- Harpoon.length harpoon) (Harpoon.x harpoon) &&
  Qltb (Harpoon.x harpoon) (canvas_width + Harpoon.length harpoon) &&
  Qltb (- Harpoon.length harpoon) (Harpoon.y harpoon) &&
  Qltb (Harpoon.y harpoon) (canvas_height + Harpoon.length harpoon).

(** [game.keys[" "]] is never set (the handlers store the space bar under
    [Space]), so the firing test reads [game.keys.Space] alone. *)
Definition updateWeaponSystem (deltaTime : Q) : M unit :=
  let scaleFactor := scaleOf deltaTime in
  g <- getG ;;
  when (Qltb 0 (Diver.weaponCooldown (diver g))) (
    modD (fun d => Diver.set_weaponCooldown (Diver.weaponCooldown d - scaleFactor) d) ;;
    g <- getG ;;
    when (Qleb (Diver.weaponCooldown (diver g)) 0) (modD (Diver.set_canFire true))) ;;
  g <- getG ;;
  when (Keys.Space (keys g) &&
        (Diver.canFire (diver g) ||
         Qleb (Diver.weaponCooldown (diver g))
              (Diver.weaponCooldownMax (diver g) * RAPID_FIRE_THRESHOLD_FACTOR)))
       (fireHarpoon ;;
        modD (Diver.set_canFire false) ;;
        modD (fun d => Diver.set_weaponCooldown (Diver.weaponCooldownMax d) d)) ;;
  modG (fun g => set_harpoons
    (filter harpoonActive (map (harpoonMotion scaleFactor) (harpoons g))) g).

(** *** Treasures and hearts *)

(** The rotation and falling part of the loop bodies of [updateTreasures]
    ([gravity = GRAVITY]) and [updateHearts] ([gravity = GRAVITY * 0.8]). *)
Definition fall (gravity scaleFactor : Q) (treasure : Treasure.t) : Treasure.t :=
  let treasure := Treasure.set_angle
    (Treasure.angle treasure + Treasure.rotationSpeed treasure * scaleFactor) treasure in
  if Treasure.isFalling treasure then
    let treasure := Treasure.set_dy (Treasure.dy treasure + gravity * scaleFactor) treasure in
    let treasure := Treasure.set_y (Treasure.y treasure + Treasure.dy treasure * scaleFactor) treasure in
    if Qleb (Treasure.targetY treasure) (Treasure.y treasure) then
      let treasure := Treasure.set_y (Treasure.targetY treasure) treasure in
      let treasure := Treasure.set_isFalling false treasure in
      Treasure.set_dy 0 treasure
    else treasure
  else treasure.

Definition treasureBody (scaleFactor : Q) (treasure : Treasure.t) : M (option Treasure.t) :=
  let treasure := fall GRAVITY scaleFactor treasure in
  g <- getG ;;
  if isColliding true (Diver.box (diver g)) (Treasure.box treasure) false then
    modG (fun g => set_score
      (score g + Treasure.value treasure * (Diver.comboCounter (diver g) + 1))%Z g) ;;
    modD updateCombo ;;
    createExplosion (Treasure.x treasure + Treasure.width treasure / 2)
                    (Treasure.y treasure + Treasure.height treasure / 2)
                    (Treasure.color treasure) ;;
    ret None
  else ret (Some treasure).

Definition updateTreasures (deltaTime : Q) : M unit :=
  let scaleFactor := scaleOf deltaTime in
  g <- getG ;;
  kept <- forKeep (treasureBody scaleFactor) (treasures g) ;;
  modG (set_treasures kept).

Definition heartBody (scaleFactor : Q) (heart : Heart.t) : M (option Heart.t) :=
  let heart := fall (GRAVITY * 0.8) scaleFactor heart in
  g <- getG ;;
  if isColliding true (Diver.box (diver g)) (Heart.box heart) false then
    (if (playerLives g <? MAX_PLAYER_LIVES)%Z then
       modG (fun g =>
         let g := set_playerLives (playerLives g + Heart.value heart)%Z g in
         set_playerLives (Z.min (playerLives g) MAX_PLAYER_LIVES) g) ;;
       modG (fun g => set_score (score g + 50 * (Diver.comboCounter (diver g) + 1))%Z g) ;;
       modD updateCombo ;;
       createExplosion (Heart.x heart + Heart.width heart / 2)
                       (Heart.y heart + Heart.height heart / 2) (Heart.color heart) ;;
       createExplosion (Heart.x heart + Heart.width heart / 2)
                       (Heart.y heart + Heart.height heart / 2) (Hex "#ff88aa")
     else ret tt) ;;
    ret None
  else ret (Some heart).

Definition updateHearts (deltaTime : Q) : M unit :=
  let scaleFactor := scaleOf deltaTime in
  g <- getG ;;
  kept <- forKeep (heartBody scaleFactor) (hearts g) ;;
  modG (set_hearts kept).

(** *** Hostiles *)

(** The block run when a harpoon hits [enemy]; [rest] is the harpoon
    array without that harpoon.  The result is the enemy left in
    [game.enemies], if any. *)
Definition harpoonHit (enemy : Enemy.t) (rest : list Harpoon.t) : M (option Enemy.t) :=
  createExplosion (Enemy.x enemy + Enemy.width enemy / 2)
                  (Enemy.y enemy + Enemy.height enemy / 2) (Enemy.color enemy) ;;
  playSound "explosion" ;;
  let enemy := Enemy.set_health (Enemy.health enemy - 1)%Z enemy in
  (if (Enemy.health enemy <=? 0)%Z
   then modG (fun g => set_score (score g + 25 * (Diver.comboCounter (diver g) + 1))%Z g)
   else modG (fun g => set_score (score g + 10 * (Diver.comboCounter (diver g) + 1))%Z g)) ;;
  modD updateCombo ;;
  modG (set_harpoons rest) ;;
  if (Enemy.health enemy <=? 0)%Z then
    (if Enemy.isShark enemy
     then r <- mathRandom ;;
          when (Qltb r 0.5) (generateHeart (Enemy.x enemy, Enemy.y enemy))
     else ret tt) ;;
    (if Enemy.isShark enemy
     then r <- mathRandom ;;
          when (Qltb r 0.4) (generateTreasures 1 (Some (Enemy.x enemy, Enemy.y enemy)))
     else ret tt) ;;
    r <- mathRandom ;;
    setTimeout 1 (1000 + r * 2000) ;;
    ret None
  else
    ret (Some (Enemy.set_dx (Enemy.dx enemy * -0.8) enemy)).

(** The first statements of the loop body of [updateEnemies]: motion
    and wrap-around. *)
Definition enemyMotion (scaleFactor : Q) (enemy : Enemy.t) : Enemy.t :=
  let enemy := Enemy.set_x (Enemy.x enemy + Enemy.dx enemy * scaleFactor) enemy in
  let enemy := Enemy.set_y (Enemy.baseY enemy + sin (Enemy.offsetY enemy) * Enemy.amplitude enemy) enemy in
  let enemy := Enemy.set_offsetY (Enemy.offsetY enemy + Enemy.frequency enemy * scaleFactor) enemy in
  if Qltb (Enemy.x enemy) (- Enemy.width enemy * 2) && Qltb (Enemy.dx enemy) 0
  then Enemy.set_x (canvas_width + Enemy.width enemy) enemy
  else if Qltb (canvas_width + Enemy.width enemy * 2) (Enemy.x enemy) && Qltb 0 (Enemy.dx enemy)
  then Enemy.set_x (- Enemy.width enemy) enemy
  else enemy.

(** The test [isColliding(game.diver, enemy) && !game.diver.isShieldActive]
    of the loop body and the block it guards: the player is hit. *)
Definition enemyContact (enemy : Enemy.t) : M Enemy.t :=
  g <- getG ;;
  if isColliding true (Diver.box (diver g)) (Enemy.box enemy) (Enemy.isShark enemy)
     && negb (Diver.isShieldActive (diver g))
  then
    modG (fun g => set_oxygen (Qmax 0 (oxygen g - 30)) g) ;;
    createExplosion (Diver.x (diver g) + Diver.width (diver g) / 2)
                    (Diver.y (diver g) + Diver.height (diver g) / 2)
                    (Hex "#ff0000") ;;
    modD resetCombo ;;
    let enemy := Enemy.set_dx (- Enemy.dx enemy) enemy in
    ret (Enemy.set_x (Enemy.x enemy + Enemy.dx enemy * 20) enemy)
  else ret enemy.

(** The loop [for (let harpoon of game.harpoons)] of the loop body. *)
Definition enemyHarpoons (enemy : Enemy.t) : M (option Enemy.t) :=
  g <- getG ;;
  match findHit (Enemy.box enemy) (Enemy.isShark enemy) (harpoons g) with
  | Some (_, rest) => harpoonHit enemy rest
  | None => ret (Some enemy)
  end.

Definition enemyBody (scaleFactor : Q) (enemy : Enemy.t) : M (option Enemy.t) :=
  let enemy := enemyMotion scaleFactor enemy in
  enemy <- enemyContact enemy ;;
  enemyHarpoons enemy.

Definition updateEnemies (deltaTime : Q) : M unit :=
  let scaleFactor := scaleOf deltaTime in
  g <- getG ;;
  kept <- forKeep (enemyBody scaleFactor) (enemies g) ;;
  modG (set_enemies kept) ;;
  g <- getG ;;
  if (Z.of_nat (List.length (enemies g)) <? 3 + level g)%Z
  then r <- mathRandom ;; when (Qltb r (0.002 * scaleFactor)) (generateEnemies 1)
  else ret tt.

(** *** Crabs *)

Definition crabMotion (scaleFactor : Q) (crab : Crab.t) : Crab.t :=
  let crab := Crab.set_x (Crab.x crab + Crab.dx crab * scaleFactor) crab in
  if Qltb (Crab.x crab) (- Crab.width crab * 2) && Qltb (Crab.dx crab) 0
  then Crab.set_x (canvas_width + Crab.width crab) crab
  else if Qltb (canvas_width + Crab.width crab * 2) (Crab.x crab) && Qltb 0 (Crab.dx crab)
  then Crab.set_x (- Crab.width crab) crab
  else crab.

Definition crabBody (scaleFactor : Q) (crab : Crab.t) : M (option Crab.t) :=
  let crab := crabMotion scaleFactor crab in
  g <- getG ;;
  keptTreasures <- forKeep (fun treasure =>
      if negb (Treasure.isFalling treasure)
         && isColliding false (Crab.box crab) (Treasure.box treasure) false
      then
        createExplosion (Treasure.x treasure + Treasure.width treasure / 2)
                        (Treasure.y treasure + Treasure.height treasure / 2)
                        (Treasure.color treasure) ;;
        modG (fun g => set_score (score g + 5)%Z g) ;;
        ret None
      else ret (Some treasure)) (treasures g) ;;
  modG (set_treasures keptTreasures) ;;
  g <- getG ;;
  keptHearts <- forKeep (fun heart =>
      if negb (Heart.isFalling heart)
         && isColliding false (Crab.box crab) (Heart.box heart) false
      then
        createExplosion (Heart.x heart + Heart.width heart / 2)
                        (Heart.y heart + Heart.height heart / 2)
                        (Heart.color heart) ;;
        ret None
      else ret (Some heart)) (hearts g) ;;
  modG (set_hearts keptHearts) ;;
  g <- getG ;;
  match findHit (Crab.box crab) false (harpoons g) with
  | Some (_, rest) =>
      let crab := Crab.set_dx (- Crab.dx crab) crab in
      let crab := Crab.set_x (Crab.x crab + Crab.dx crab * 10) crab in
      modG (set_harpoons rest) ;;
      createExplosion (Crab.x crab + Crab.width crab / 2)
                      (Crab.y crab + Crab.height crab / 2) (Crab.color crab) ;;
      ret (Some crab)
  | None => ret (Some crab)
  end.

Definition updateCrabs (deltaTime : Q) : M unit :=
  let scaleFactor := scaleOf deltaTime in
  g <- getG ;;
  (match crabs g with
   | [] => r <- mathRandom ;; when (Qltb r (0.001 * scaleFactor)) generateCrab
   | _ :: _ => ret tt
   end) ;;
  g <- getG ;;
  kept <- forKeep (crabBody scaleFactor) (crabs g) ;;
  modG (set_crabs kept).

(** *** Game end *)

Definition endGame : M unit :=
  modG (set_gameOver true) ;;
  g <- getG ;;
  modH (set_finalScore (score g)) ;;
  modH (set_uiGameState UiOver).

(** *** Oxygen *)

(** The first statements of the bubble loop of [updateOxygenBubbles]:
    rise, wobble and pulse. *)
Definition bubbleMotion (scaleFactor : Q) (bubble : OxygenBubble.t) : OxygenBubble.t :=
  let bubble := OxygenBubble.set_y (OxygenBubble.y bubble - OxygenBubble.speed bubble * scaleFactor) bubble in
  let bubble := OxygenBubble.set_x (OxygenBubble.x bubble + sin (OxygenBubble.offset bubble) * 0.3 * scaleFactor) bubble in
  let bubble := OxygenBubble.set_offset (OxygenBubble.offset bubble + 0.03 * scaleFactor) bubble in
  match OxygenBubble.isLarge bubble, OxygenBubble.pulse bubble with
  | true, Some pulse =>
      let pulse := pulse + 0.05 * scaleFactor in
      let pulseFactor := sin pulse * 0.1 + 1 in
      OxygenBubble.set_radius
        ((if OxygenBubble.isLarge bubble then 25 else 10) * pulseFactor)
        (OxygenBubble.set_pulse (Some pulse) bubble)
  | _, _ => bubble
  end.

Definition bubbleBody (scaleFactor : Q) (bubble : OxygenBubble.t) : M (option OxygenBubble.t) :=
  let bubble := bubbleMotion scaleFactor bubble in
  g <- getG ;;
  collected <- (if isCollidingCircle true (Diver.box (diver g)) bubble then
                  modG (fun g => set_oxygen
                    (Qmin MAX_OXYGEN (oxygen g + OxygenBubble.oxygenAmount bubble)) g) ;;
                  createExplosion (OxygenBubble.x bubble) (OxygenBubble.y bubble)
                                  (OxygenBubble.color bubble) ;;
                  playSound "bubble" ;;
                  ret true
                else ret false) ;;
  let offScreen := Qltb (OxygenBubble.y bubble) (- OxygenBubble.radius bubble) in
  ret (if collected || offScreen then None else Some bubble).

(** The respawn assignments of the branch [game.playerLives > 0]. *)
Definition respawn (g : Game) : Game :=
  let g := upd_diver (Diver.set_x (canvas_width / 2)) g in
  let g := upd_diver (Diver.set_y (canvas_height / 2)) g in
  let g := set_oxygen (MAX_OXYGEN / 2) g in
  let g := upd_diver resetCombo g in
  let g := upd_diver (Diver.set_isShieldActive true) g in
  upd_diver (Diver.set_shieldTimer 180) g.

(** [updateOxygenBubbles] up to, and without, its last statement (the
    test for oxygen exhaustion): depletion, warnings, bubbles, spawns. *)
Definition oxygenAndBubbles (deltaTime : Q) : M unit :=
  let scaleFactor := scaleOf deltaTime in
  g <- getG ;;
  let prevOxygenLevel := oxygen g in
  let depthFactor := Diver.y (diver g) / canvas_height in
  let depthMultiplier := 1.0 + depthFactor in
  modG (fun g => set_oxygen
    (Qmax 0 (oxygen g - (Diver.oxygenDepletionRate (diver g) * depthMultiplier) * scaleFactor)) g) ;;
  g <- getG ;;
  let oxygenPercentage := oxygen g / MAX_OXYGEN in
  when (Qleb oxygenPercentage 0.2 && Qltb 0.2 (prevOxygenLevel / MAX_OXYGEN))
       (playSound "warning") ;;
  (if Qltb oxygenPercentage 0.1
   then r <- mathRandom ;; when (Qltb r (0.01 * scaleFactor)) (playSound "warning")
   else ret tt) ;;
  g <- getG ;;
  kept <- forKeep (bubbleBody scaleFactor) (oxygenBubbles g) ;;
  modG (set_oxygenBubbles kept) ;;
  r <- mathRandom ;;
  when (Qltb r (0.005 * scaleFactor)) (generateOxygenBubbles 1) ;;
  r <- mathRandom ;;
  when (Qltb r (0.0007 * scaleFactor)) generateLargeOxygenBubble.

(** The last statement of [updateOxygenBubbles]: player death. *)
Definition oxygenExhausted : M unit :=
  g <- getG ;;
  when (Qleb (oxygen g) 0 && gameStarted g && negb (gameOver g)) (
    modG (fun g => set_playerLives (playerLives g - 1)%Z g) ;;
    createExplosion (Diver.x (diver g) + Diver.width (diver g) / 2)
                    (Diver.y (diver g) + Diver.height (diver g) / 2)
                    (Hex "#ff0000") ;;
    g <- getG ;;
    if (0 <? playerLives g)%Z then modG respawn else endGame).

Definition updateOxygenBubbles (deltaTime : Q) : M unit :=
  oxygenAndBubbles deltaTime ;;
  oxygenExhausted.

(** *** Oxygen bonus *)

(** The first statements of the [filter] callback of
    [updateOxygenBonus]: fade in, rotation, rise, ageing, fade out. *)
Definition bonusMotion (scaleFactor : Q) (bonus : OxygenBonus.t) : OxygenBonus.t :=
  let bonus :=
    if negb (OxygenBonus.fullyVisible bonus) && Qltb (OxygenBonus.alpha bonus) 1
    then let bonus := OxygenBonus.set_alpha (OxygenBonus.alpha bonus + 0.02 * scaleFactor) bonus in
         if Qleb 1 (OxygenBonus.alpha bonus)
         then OxygenBonus.set_fullyVisible true (OxygenBonus.set_alpha 1 bonus)
         else bonus
    else bonus in
  let bonus := OxygenBonus.set_angle (OxygenBonus.angle bonus + OxygenBonus.rotationSpeed bonus * scaleFactor) bonus in
  let bonus := OxygenBonus.set_y (OxygenBonus.y bonus + OxygenBonus.dy bonus * scaleFactor) bonus in
  let bonus := OxygenBonus.set_lifespan (OxygenBonus.lifespan bonus - scaleFactor) bonus in
  if Qltb (OxygenBonus.lifespan bonus) 100
  then OxygenBonus.set_alpha (Qmax 0 (OxygenBonus.alpha bonus - 0.02 * scaleFactor)) bonus
  else bonus.

Definition bonusBody (scaleFactor : Q) (bonus : OxygenBonus.t) : M (option OxygenBonus.t) :=
  let bonus := bonusMotion scaleFactor bonus in
  let cx := OxygenBonus.x bonus + OxygenBonus.width bonus / 2 in
  let cy := OxygenBonus.y bonus + OxygenBonus.height bonus / 2 in
  if Qleb (OxygenBonus.y bonus) 30 then
    stopSound "hello" ;;
    modG (fun g => set_oxygen (Qmin MAX_OXYGEN (oxygen g + OxygenBonus.value bonus * 1.5)) g) ;;
    modG (fun g => set_score (score g + 250 * (Diver.comboCounter (diver g) + 1))%Z g) ;;
    modD updateCombo ;;
    createExplosion cx cy (Hex "#88ffff") ;;
    createExplosion cx cy (Hex "#ffffff") ;;
    createExplosion cx cy (Hex "#ffff88") ;;
    ret None
  else
    g <- getG ;;
    let hitByEnemy :=
      existsb (fun enemy => isColliding false (Enemy.box enemy) (OxygenBonus.box bonus) false)
              (enemies g) in
    if hitByEnemy then
      stopSound "hello" ;;
      createExplosion cx cy (Hex "#ff5555") ;;
      createExplosion cx cy (Hex "#ffaa55") ;;
      playSound "explosion" ;;
      ret None
    else if isColliding true (Diver.box (diver g)) (OxygenBonus.box bonus) false then
      stopSound "hello" ;;
      modG (fun g => set_oxygen (Qmin MAX_OXYGEN (oxygen g + OxygenBonus.value bonus)) g) ;;
      modG (fun g => set_score (score g + 150 * (Diver.comboCounter (diver g) + 1))%Z g) ;;
      modD updateCombo ;;
      createExplosion cx cy (Hex "#88ffff") ;;
      createExplosion cx cy (Hex "#ffff88") ;;
      ret None
    else
      ret (if Qltb 0 (OxygenBonus.lifespan bonus) && Qltb 0 (OxygenBonus.alpha bonus)
           then Some bonus else None).

Definition updateOxygenBonus (deltaTime : Q) : M unit :=
  let scaleFactor := scaleOf deltaTime in
  g <- getG ;;
  (match oxygenBonus g with
   | [] => r <- mathRandom ;; when (Qltb r (0.0005 * scaleFactor)) generateOxygenBonus
   | _ :: _ => ret tt
   end) ;;
  g <- getG ;;
  kept <- forKeep (bonusBody scaleFactor) (oxygenBonus g) ;;
  modG (set_oxygenBonus kept).

(** *** Particles and level *)

Definition updateParticles (deltaTime : Q) : M unit :=
  let scaleFactor := scaleOf deltaTime in
  modG (fun g => set_particles (
    filter (fun particle => Qltb 0 (Particle.lifespan particle))
      (map (fun particle =>
              Particle.mk (Particle.x particle + Particle.dx particle * scaleFactor)
                          (Particle.y particle + Particle.dy particle * scaleFactor)
                          (Particle.dx particle * 0.95) (Particle.dy particle * 0.95)
                          (Particle.radius particle) (Particle.color particle)
                          (Particle.lifespan particle - scaleFactor)
                          (Particle.initialLifespan particle))
         (particles g))) g).

Definition createLevelUpEffect : M unit :=
  repeatM 40 (
    r <- mathRandom ;;
    let edge := Qfloor (r * 4) in
    xy <- (if (edge =? 0)%Z then r <- mathRandom ;; ret (r * canvas_width, 0)
           else if (edge =? 1)%Z then r <- mathRandom ;; ret (canvas_width, r * canvas_height)
           else if (edge =? 2)%Z then r <- mathRandom ;; ret (r * canvas_width, canvas_height)
           else if (edge =? 3)%Z then r <- mathRandom ;; ret (0, r * canvas_height)
           else ret (0, 0)) ;;
    r1 <- mathRandom ;;
    r2 <- mathRandom ;;
    r3 <- mathRandom ;;
    r4 <- mathRandom ;;
    modG (fun g => set_particles (particles g ++
      [Particle.mk (fst xy) (snd xy) ((r1 - 0.5) * 3) ((r2 - 0.5) * 3) (2 + r3 * 3)
                   (if Qltb r4 0.5 then Hex "#ffff00" else Hex "#ffffff")
                   (PARTICLE_LIFESPAN * 2) (PARTICLE_LIFESPAN * 2)]) g)).

Definition updateLevel : M unit :=
  g <- getG ;;
  let levelThreshold := (2000 * level g)%Z in
  when ((levelThreshold <=? score g)%Z && (level g <? 5)%Z) (
    modG (fun g => set_level (level g + 1)%Z g) ;;
    modD (fun d =>
      Diver.set_oxygenDepletionRate (Diver.oxygenDepletionRate d + 0.02) d) ;;
    g <- getG ;;
    generateEnemies (Z.to_nat (level g)) ;;
    generateOxygenBubbles 1 ;;
    createLevelUpEffect).

(** *** The loop driver *)

(** [render] draws the game on the canvas and writes nothing to the game
    object or the host state modelled here. *)
Definition render : M unit := ret tt.

(** The ten subsystems, in the order of [gameLoop]. *)
Definition update (deltaTime : Q) : M unit :=
  updateDiver deltaTime ;;
  updateWeaponSystem deltaTime ;;
  updateTreasures deltaTime ;;
  updateHearts deltaTime ;;
  updateEnemies deltaTime ;;
  updateCrabs deltaTime ;;
  updateOxygenBubbles deltaTime ;;
  updateOxygenBonus deltaTime ;;
  updateParticles deltaTime ;;
  updateLevel.

Definition gameLoop (timestamp : Q) : M unit :=
  g <- getG ;;
  let deltaTime := timestamp - lastUpdateTime g in
  modG (set_lastUpdateTime timestamp) ;;
  if Qltb 100 deltaTime then
    id <- requestAnimationFrame ;;
    modG (set_animationFrameId (Some id))
  else
    when (gameStarted g && negb (gameOver g)) (update deltaTime) ;;
    render ;;
    id <- requestAnimationFrame ;;
    modG (set_animationFrameId (Some id)).

(** [init()]; [now] is the value of [performance.now()]. *)
Definition init (now : Q) : M unit :=
  modG (fun g => set_lastUpdateTime now (set_level 1 (set_oxygen MAX_OXYGEN
          (set_score 0 (set_gameOver false (set_gameStarted true g)))))) ;;
  modG (set_playerLives 3) ;;
  playBackgroundMusic ;;
  modD (fun d =>
    let d := Diver.set_y (canvas_height / 2) (Diver.set_x (canvas_width / 2) d) in
    let d := Diver.set_size 1 (Diver.set_dy 0 (Diver.set_dx 0 d)) in
    let d := Diver.set_speed (Diver.baseSpeed d) (Diver.set_height 47 (Diver.set_width 70 d)) in
    let d := Diver.set_weaponCooldown 0 (Diver.set_canFire true (Diver.set_oxygenDepletionRate 0.05 d)) in
    let d := Diver.set_facingDirection FacingRight (Diver.set_weaponCooldownMax 30 d) in
    let d := Diver.set_comboTimer 0 (Diver.set_comboCounter 0 d) in
    Diver.set_shieldTimer 0 (Diver.set_isShieldActive false d)) ;;
  modG (fun g => set_oxygenBubbles [] (set_enemies [] (set_treasures [] g))) ;;
  modG (fun g => set_particles [] (set_harpoons [] g)) ;;
  modG (fun g => set_crabs [] (set_hearts [] g)) ;;
  modG (set_oxygenBonus []) ;;
  modG (set_oxygenGenerator
    (GameObject.mk (canvas_width / 2 - 30) (canvas_height - 60) 60 50)) ;;
  generateEnemies 3 ;;
  generateOxygenBubbles 2 ;;
  generateLargeOxygenBubble ;;
  generateCrab ;;
  g <- getG ;;
  match animationFrameId g with
  | Some id => cancelAnimationFrame id
  | None => ret tt
  end ;;
  id <- requestAnimationFrame ;;
  modG (set_animationFrameId (Some id)) ;;
  modH (set_uiGameState UiPlaying) ;;
  modH (set_finalScore 0).

(** *** Input *)

(** [e.key in game.keys] and the assignment [game.keys[e.key] = v]. *)
Definition keyInKeys (key : string) : bool :=
  existsb (String.eqb key) ["ArrowRight"; "ArrowLeft"; "ArrowUp"; "ArrowDown"; "Space"]%string.

Definition setKey (key : string) (v : bool) (k : Keys.t) : Keys.t :=
  if (key =? "ArrowRight")%string
  then Keys.mk v (Keys.ArrowLeft k) (Keys.ArrowUp k) (Keys.ArrowDown k) (Keys.Space k)
  else if (key =? "ArrowLeft")%string
  then Keys.mk (Keys.ArrowRight k) v (Keys.ArrowUp k) (Keys.ArrowDown k) (Keys.Space k)
  else if (key =? "ArrowUp")%string
  then Keys.mk (Keys.ArrowRight k) (Keys.ArrowLeft k) v (Keys.ArrowDown k) (Keys.Space k)
  else if (key =? "ArrowDown")%string
  then Keys.mk (Keys.ArrowRight k) (Keys.ArrowLeft k) (Keys.ArrowUp k) v (Keys.Space k)
  else if (key =? "Space")%string
  then Keys.mk (Keys.ArrowRight k) (Keys.ArrowLeft k) (Keys.ArrowUp k) (Keys.ArrowDown k) v
  else k.

Definition handleKeyDown (key : string) (now : Q) : M unit :=
  g <- getG ;;
  if negb (gameStarted g) && negb (gameOver g) && negb (key =? "F5")%string
  then init now
  else if keyInKeys key then modG (fun g => set_keys (setKey key true (keys g)) g)
  else if (key =? " ")%string then modG (fun g => set_keys (setKey "Space" true (keys g)) g)
  else ret tt.

Definition handleKeyUp (key : string) : M unit :=
  if keyInKeys key then modG (fun g => set_keys (setKey key false (keys g)) g)
  else if (key =? " ")%string then modG (fun g => set_keys (setKey "Space" false (keys g)) g)
  else ret tt.

(** The [i]-th pending [setTimeout] callback fires: [generateEnemies(n)]. *)
Definition fireTimeout (i : nat) : M unit :=
  fun s =>
    match nth_error (timeouts (host s)) i with
    | Some (_, count) =>
        generateEnemies count
          (mkSys (game s)
                 (set_timeouts (firstn i (timeouts (host s)) ++ skipn (S i) (timeouts (host s)))
                               (host s)))
    | None => (tt, s)
    end.

(** *** A session *)

(** The game instance built by the effect hook before any event;
    [now] is [performance.now()] at that moment. *)
Definition initialGame (now : Q) : Game :=
  mkGame None false false 0 MAX_OXYGEN 1 3 [] [] [] [] [] [] [] []
    (GameObject.mk (canvas_width / 2 - 30) (canvas_height - 60) 60 50)
    (Diver.mk (canvas_width / 2) (canvas_height / 2) 70 47 4 4 0 0 (Hex "#00a8ff")
              0.05 1 true 0 30 FacingRight 0 0 false 0)
    Keys.none now.

Definition initialHost : Host := mkHost 0 [] [] UiStart 0 0 [].

Definition initialSys (now : Q) : Sys := mkSys (initialGame now) initialHost.

(** What can happen to the game between two renders.  *)
Inductive Event : Type :=
| Frame (timestamp : Q)
| KeyDown (key : string) (now : Q)
| KeyUp (key : string)
| Timeout (i : nat).

Definition handle (e : Event) : M unit :=
  match e with
  | Frame timestamp => gameLoop timestamp
  | KeyDown key now => handleKeyDown key now
  | KeyUp key => handleKeyUp key
  | Timeout i => fireTimeout i
  end.

(** The states of a session: the initial game instance and whatever a
    sequence of frames, key events and timers makes of it.  Nothing is
    assumed about the times that the host hands over. *)
Inductive reachable (now : Q) : Sys -> Prop :=
| reach_initial : reachable now (initialSys now)
| reach_event : forall s e, reachable now s -> reachable now (exec (handle e) s).

(** [gameLoop] does not compare a frame's timestamp with the time the
    game recorded last; [clockOk] says of an event that its frame is
    not stamped earlier than that time, i.e. that [deltaTime >= 0]. *)
Definition clockOk (e : Event) (s : Sys) : Prop :=
  match e with
  | Frame timestamp => lastUpdateTime (game s) <= timestamp
  | _ => True
  end.

(** The part of a session's states that is reached while every frame
    has [deltaTime >= 0]. *)
Inductive reachableForward (now : Q) : Sys -> Prop :=
| forward_initial : reachableForward now (initialSys now)
| forward_event : forall s e,
    reachableForward now s -> clockOk e s -> reachableForward now (exec (handle e) s).

(** ** Reasoning about the engine *)

(** *** Numbers *)

Lemma Qleb_le (a b : Q) : Qleb a b = true <-> a <= b.
Proof. apply Qle_bool_iff. Qed.

Lemma Qleb_gt (a b : Q) : Qleb a b = false <-> b < a.
Proof.
  unfold Qleb. split; intros H.
  - apply Qnot_le_lt. intros L. apply Qle_bool_iff in L. congruence.
  - destruct (Qle_bool a b) eqn:E; [ | reflexivity ].
    apply Qle_bool_iff in E. exfalso. apply (Qlt_not_le _ _ H E).
Qed.

Lemma Qltb_lt (a b : Q) : Qltb a b = true <-> a < b.
Proof.
  unfold Qltb. rewrite negb_true_iff. apply (Qleb_gt b a).
Qed.

Lemma Qltb_ge (a b : Q) : Qltb a b = false <-> b <= a.
Proof.
  unfold Qltb. rewrite negb_false_iff. apply Qle_bool_iff.
Qed.

Lemma Qmax_lower (a b : Q) : a <= Qmax a b.
Proof. apply Q.le_max_l. Qed.

Lemma Qmax_upper (a b c : Q) : a <= c -> b <= c -> Qmax a b <= c.
Proof. apply Q.max_lub. Qed.

Lemma Qmin_upper (a b : Q) : Qmin a b <= a.
Proof. apply Q.le_min_l. Qed.

Lemma Qmin_lower (a b c : Q) : c <= a -> c <= b -> c <= Qmin a b.
Proof. apply Q.min_glb. Qed.

Lemma scaleOf_nonneg (deltaTime : Q) : 0 <= deltaTime -> 0 <= scaleOf deltaTime.
Proof.
  intros H. unfold scaleOf.
  setoid_replace (deltaTime / (1000 / 60)) with (deltaTime * (60 # 1000)) by field.
  nra.
Qed.

Lemma scaleOf_pos (deltaTime : Q) : 0 < deltaTime -> 0 < scaleOf deltaTime.
Proof.
  intros H. unfold scaleOf.
  setoid_replace (deltaTime / (1000 / 60)) with (deltaTime * (60 # 1000)) by field.
  nra.
Qed.

(** *** The monad *)

Lemma exec_bind {A B : Type} (m : M A) (k : A -> M B) (s : Sys) :
  exec (bind m k) s = exec (k (eval m s)) (exec m s).
Proof. reflexivity. Qed.

Lemma eval_bind {A B : Type} (m : M A) (k : A -> M B) (s : Sys) :
  eval (bind m k) s = eval (k (eval m s)) (exec m s).
Proof. reflexivity. Qed.

Lemma exec_when_true (m : M unit) (s : Sys) : exec (when true m) s = exec m s.
Proof. reflexivity. Qed.

Lemma exec_when_false (m : M unit) (s : Sys) : exec (when false m) s = s.
Proof. reflexivity. Qed.

(** [tracks R m]: running [m] relates the state before to the state
    after by [R].  For a preorder [R] this is compositional. *)
Definition tracks {A : Type} (R : Sys -> Sys -> Prop) (m : M A) : Prop :=
  forall s, R s (exec m s).

Section Tracking.
Variable R : Sys -> Sys -> Prop.
Hypothesis R_refl : forall s, R s s.
Hypothesis R_trans : forall s1 s2 s3, R s1 s2 -> R s2 s3 -> R s1 s3.

Lemma tracks_ret {A : Type} (a : A) : tracks R (ret a).
Proof. intros s. apply R_refl. Qed.

Lemma tracks_getG : tracks R getG.
Proof. intros s. apply R_refl. Qed.

Lemma tracks_bind {A B : Type} (m : M A) (k : A -> M B) :
  tracks R m -> (forall a, tracks R (k a)) -> tracks R (bind m k).
Proof.
  intros Hm Hk s. rewrite exec_bind.
  apply R_trans with (exec m s); [ apply Hm | apply Hk ].
Qed.

Lemma tracks_when (b : bool) (m : M unit) : tracks R m -> tracks R (when b m).
Proof. intros Hm. destruct b; [ exact Hm | apply tracks_ret ]. Qed.

Lemma tracks_repeatM (n : nat) (body : M unit) :
  tracks R body -> tracks R (repeatM n body).
Proof.
  intros Hb. induction n as [ | n IH ]; simpl.
  - apply tracks_ret.
  - apply tracks_bind; [ exact Hb | intros _; exact IH ].
Qed.

Lemma tracks_forKeep {X : Type} (body : X -> M (option X)) (xs : list X) :
  (forall x, In x xs -> tracks R (body x)) -> tracks R (forKeep body xs).
Proof.
  induction xs as [ | x xs IH ]; simpl; intros Hb.
  - apply tracks_ret.
  - apply tracks_bind; [ apply Hb; left; reflexivity | intros r ].
    apply tracks_bind; [ apply IH; intros y Hy; apply Hb; right; exact Hy | intros rs ].
    apply tracks_ret.
Qed.

End Tracking.


(** *** Spawning

    [spawned s s']: from [s] to [s'] nothing happened but the creation
    of entities by the factories ([generate...], [createExplosion],
    [createLevelUpEffect]), calls of [Math.random] and sound triggers. *)

Definition heartOk (h : Heart.t) : Prop := Heart.value h = 1%Z.
Definition treasureOk (t : Treasure.t) : Prop := (15 <= Treasure.value t)%Z.
Definition bubbleOk (b : OxygenBubble.t) : Prop := 15 <= OxygenBubble.oxygenAmount b.
Definition bonusOk (o : OxygenBonus.t) : Prop := OxygenBonus.value o = 150.

Definition extends {X : Type} (P : X -> Prop) (l l' : list X) : Prop :=
  exists new, l' = l ++ new /\ Forall P new.

Record spawned (s s' : Sys) : Prop := mkSpawned {
  sp_animationFrameId : animationFrameId (game s') = animationFrameId (game s);
  sp_gameStarted : gameStarted (game s') = gameStarted (game s);
  sp_gameOver : gameOver (game s') = gameOver (game s);
  sp_score : score (game s') = score (game s);
  sp_oxygen : oxygen (game s') = oxygen (game s);
  sp_level : level (game s') = level (game s);
  sp_playerLives : playerLives (game s') = playerLives (game s);
  sp_harpoons : harpoons (game s') = harpoons (game s);
  sp_oxygenGenerator : oxygenGenerator (game s') = oxygenGenerator (game s);
  sp_diver : diver (game s') = diver (game s);
  sp_keys : keys (game s') = keys (game s);
  sp_lastUpdateTime : lastUpdateTime (game s') = lastUpdateTime (game s);
  sp_hearts : extends heartOk (hearts (game s)) (hearts (game s'));
  sp_treasures : extends treasureOk (treasures (game s)) (treasures (game s'));
  sp_enemies : extends (fun _ => True) (enemies (game s)) (enemies (game s'));
  sp_crabs : extends (fun _ => True) (crabs (game s)) (crabs (game s'));
  sp_oxygenBubbles : extends bubbleOk (oxygenBubbles (game s)) (oxygenBubbles (game s'));
  sp_particles : extends (fun _ => True) (particles (game s)) (particles (game s'));
  sp_oxygenBonus : extends bonusOk (oxygenBonus (game s)) (oxygenBonus (game s'));
  sp_timeouts : extends (fun _ => True) (timeouts (host s)) (timeouts (host s'));
  sp_uiGameState : uiGameState (host s') = uiGameState (host s);
  sp_finalScore : finalScore (host s') = finalScore (host s);
  sp_frameRequests : frameRequests (host s') = frameRequests (host s);
  sp_cancelledFrames : cancelledFrames (host s') = cancelledFrames (host s) }.

Lemma extends_refl {X : Type} (P : X -> Prop) (l : list X) : extends P l l.
Proof. exists []. split; [ symmetry; apply app_nil_r | constructor ]. Qed.

Lemma extends_trans {X : Type} (P : X -> Prop) (l1 l2 l3 : list X) :
  extends P l1 l2 -> extends P l2 l3 -> extends P l1 l3.
Proof.
  intros (n1 & -> & F1) (n2 & -> & F2). exists (n1 ++ n2). split.
  - symmetry. apply app_assoc.
  - apply Forall_app. split; assumption.
Qed.

Lemma extends_push {X : Type} (P : X -> Prop) (l : list X) (x : X) :
  P x -> extends P l (l ++ [x]).
Proof. intros H. exists [x]. split; [ reflexivity | constructor; [ exact H | constructor ] ]. Qed.

Lemma extends_Forall {X : Type} (P Q : X -> Prop) (l l' : list X) :
  (forall x, P x -> Q x) -> extends P l l' -> Forall Q l -> Forall Q l'.
Proof.
  intros HPQ (new & -> & Hnew) Hl. apply Forall_app. split; [ exact Hl | ].
  eapply Forall_impl; [ exact HPQ | exact Hnew ].
Qed.

Lemma spawned_refl (s : Sys) : spawned s s.
Proof. constructor; try reflexivity; apply extends_refl. Qed.

Lemma spawned_trans (s1 s2 s3 : Sys) : spawned s1 s2 -> spawned s2 s3 -> spawned s1 s3.
Proof.
  intros [] []. constructor; try congruence; eapply extends_trans; eassumption.
Qed.

(** [Math.random] returns values of [[0, 1)]. *)
Hypothesis random_unit : forall n, 0 <= random n < 1.

Lemma mathRandom_unit (s : Sys) : 0 <= eval mathRandom s < 1.
Proof. apply random_unit. Qed.

Ltac spawn_leaf :=
  intros ?; constructor; simpl;
  first [ reflexivity | apply extends_refl | apply extends_push ].

Lemma spawned_mathRandom : tracks spawned mathRandom.
Proof. spawn_leaf. Qed.

Lemma spawned_playSound (name : string) : tracks spawned (playSound name).
Proof. spawn_leaf. Qed.

Lemma spawned_stopSound (name : string) : tracks spawned (stopSound name).
Proof. spawn_leaf. Qed.

Lemma spawned_setTimeout (count : nat) (delay : Q) : tracks spawned (setTimeout count delay).
Proof. spawn_leaf. exact I. Qed.

Lemma spawned_push_particle (p : Game -> Particle.t) :
  tracks spawned (modG (fun g => set_particles (particles g ++ [p g]) g)).
Proof. spawn_leaf. exact I. Qed.

Lemma spawned_push_heart (h : Heart.t) :
  heartOk h -> tracks spawned (modG (fun g => set_hearts (hearts g ++ [h]) g)).
Proof. intros H. spawn_leaf. exact H. Qed.

Lemma spawned_push_treasure (t : Treasure.t) :
  treasureOk t -> tracks spawned (modG (fun g => set_treasures (treasures g ++ [t]) g)).
Proof. intros H. spawn_leaf. exact H. Qed.

Lemma spawned_push_enemy (e : Enemy.t) :
  tracks spawned (modG (fun g => set_enemies (enemies g ++ [e]) g)).
Proof. spawn_leaf. exact I. Qed.

Lemma spawned_push_crab (c : Crab.t) :
  tracks spawned (modG (fun g => set_crabs (crabs g ++ [c]) g)).
Proof. spawn_leaf. exact I. Qed.

Lemma spawned_push_bubble (b : Game -> OxygenBubble.t) :
  (forall g, bubbleOk (b g)) ->
  tracks spawned (modG (fun g => set_oxygenBubbles (oxygenBubbles g ++ [b g]) g)).
Proof. intros H. spawn_leaf. apply H. Qed.

Lemma spawned_push_bonus (o : OxygenBonus.t) :
  bonusOk o -> tracks spawned (modG (fun g => set_oxygenBonus (oxygenBonus g ++ [o]) g)).
Proof. intros H. spawn_leaf. exact H. Qed.

Lemma tracks_bind_random (R : Sys -> Sys -> Prop) {B : Type} (k : Q -> M B) :
  (forall s1 s2 s3, R s1 s2 -> R s2 s3 -> R s1 s3) ->
  tracks R mathRandom ->
  (forall r, 0 <= r < 1 -> tracks R (k r)) -> tracks R (bind mathRandom k).
Proof.
  intros R_trans Hm Hk s. rewrite exec_bind.
  apply R_trans with (exec mathRandom s); [ apply Hm | apply Hk, mathRandom_unit ].
Qed.

Lemma Qfloor_nonneg (q : Q) : 0 <= q -> (0 <= Qfloor q)%Z.
Proof. intros H. change 0%Z with (Qfloor 0). apply Qfloor_resp_le, H. Qed.

(** Structural decomposition of a monadic program for a preorder. *)
Ltac track refl trans leaf :=
  repeat first
    [ leaf
    | match goal with
      | |- tracks _ (ret _) => apply (tracks_ret _ refl)
      | |- tracks _ getG => apply (tracks_getG _ refl)
      | |- tracks _ (bind mathRandom _) =>
          apply (tracks_bind_random _ _ trans); [ | intros ? ? ]
      | |- tracks _ (bind _ _) => apply (tracks_bind _ trans); [ | intros ? ]
      | |- tracks _ (when _ _) => apply (tracks_when _ refl)
      | |- tracks _ (repeatM _ _) => apply (tracks_repeatM _ refl trans)
      | |- tracks _ (forKeep _ _) => apply (tracks_forKeep _ refl trans); intros ? _
      | |- tracks _ (if ?b then _ else _) => destruct b
      | |- tracks _ (match ?x with _ => _ end) => destruct x
      end ].

Ltac spawn_known :=
  idtac;
  match goal with
  | |- tracks _ mathRandom => apply spawned_mathRandom
  | |- tracks _ (playSound _) => apply spawned_playSound
  | |- tracks _ (stopSound _) => apply spawned_stopSound
  | |- tracks _ (modG (fun g => set_particles _ g)) => apply spawned_push_particle
  | |- tracks _ (modG (fun g => set_enemies _ g)) => apply spawned_push_enemy
  | |- tracks _ (modG (fun g => set_crabs _ g)) => apply spawned_push_crab
  end.

Lemma spawned_createExplosion (x y : Q) (color : Color) :
  tracks spawned (createExplosion x y color).
Proof. unfold createExplosion. track spawned_refl spawned_trans spawn_known. Qed.

Lemma spawned_createLevelUpEffect : tracks spawned createLevelUpEffect.
Proof. unfold createLevelUpEffect. track spawned_refl spawned_trans spawn_known. Qed.

Lemma spawned_generateEnemies (count : nat) : tracks spawned (generateEnemies count).
Proof. unfold generateEnemies. track spawned_refl spawned_trans spawn_known. Qed.

Lemma spawned_generateCrab : tracks spawned generateCrab.
Proof. unfold generateCrab. track spawned_refl spawned_trans spawn_known. Qed.

Lemma spawned_generateHeart (position : Q * Q) : tracks spawned (generateHeart position).
Proof.
  unfold generateHeart. track spawned_refl spawned_trans spawn_known.
  apply spawned_push_heart. reflexivity.
Qed.

Lemma spawned_generateTreasures (count : nat) (position : option (Q * Q)) :
  tracks spawned (generateTreasures count position).
Proof.
  unfold generateTreasures. track spawned_refl spawned_trans spawn_known.
  all: apply spawned_push_treasure; unfold treasureOk; cbn [Treasure.value].
  all: match goal with |- (15 <= 15 + Qfloor ?q)%Z => assert (0 <= Qfloor q)%Z by (apply Qfloor_nonneg; nra) end; lia.
Qed.

Lemma spawned_generateOxygenBubbles (count : nat) : tracks spawned (generateOxygenBubbles count).
Proof.
  unfold generateOxygenBubbles. track spawned_refl spawned_trans spawn_known.
  apply spawned_push_bubble. intros g. unfold bubbleOk. cbn [OxygenBubble.oxygenAmount]. nra.
Qed.

Lemma spawned_generateLargeOxygenBubble : tracks spawned generateLargeOxygenBubble.
Proof.
  unfold generateLargeOxygenBubble. track spawned_refl spawned_trans spawn_known.
  apply spawned_push_bubble. intros g. unfold bubbleOk. cbn [OxygenBubble.oxygenAmount]. nra.
Qed.

Lemma spawned_generateOxygenBonus : tracks spawned generateOxygenBonus.
Proof.
  unfold generateOxygenBonus. track spawned_refl spawned_trans spawn_known.
  apply spawned_push_bonus. reflexivity.
Qed.

(** *** Hoare triples *)

Definition hoare {A : Type} (P : Sys -> Prop) (m : M A) (Post : A -> Sys -> Prop) : Prop :=
  forall s, P s -> Post (eval m s) (exec m s).

Lemma hoare_conseq {A : Type} (P P' : Sys -> Prop) (Post Post' : A -> Sys -> Prop) (m : M A) :
  hoare P' m Post' -> (forall s, P s -> P' s) -> (forall a s, Post' a s -> Post a s) -> hoare P m Post.
Proof. intros H HP HQ s Hs. apply HQ, H, HP, Hs. Qed.

Lemma hoare_ret {A : Type} (P : Sys -> Prop) (Post : A -> Sys -> Prop) (a : A) :
  (forall s, P s -> Post a s) -> hoare P (ret a) Post.
Proof. intros H s Hs. apply H, Hs. Qed.

Lemma hoare_bind {A B : Type} (P : Sys -> Prop) (Pmid : A -> Sys -> Prop)
  (Post : B -> Sys -> Prop) (m : M A) (k : A -> M B) :
  hoare P m Pmid -> (forall a, hoare (Pmid a) (k a) Post) -> hoare P (bind m k) Post.
Proof. intros Hm Hk s Hs. exact (Hk _ _ (Hm _ Hs)). Qed.

Lemma hoare_getG_bind {B : Type} (P : Sys -> Prop) (Post : B -> Sys -> Prop) (k : Game -> M B) :
  (forall g, hoare (fun s => P s /\ game s = g) (k g) Post) -> hoare P (bind getG k) Post.
Proof. intros Hk s Hs. exact (Hk (game s) s (conj Hs eq_refl)). Qed.

Lemma hoare_random_bind {B : Type} (P I : Sys -> Prop) (Post : B -> Sys -> Prop) (k : Q -> M B) :
  hoare P mathRandom (fun _ => I) ->
  (forall r, 0 <= r < 1 -> hoare I (k r) Post) -> hoare P (bind mathRandom k) Post.
Proof.
  intros Hm Hk s Hs. exact (Hk _ (mathRandom_unit s) _ (Hm _ Hs)).
Qed.

Lemma hoare_modG (P : Sys -> Prop) (Post : unit -> Sys -> Prop) (f : Game -> Game) :
  (forall s, P s -> Post tt (mkSys (f (game s)) (host s))) -> hoare P (modG f) Post.
Proof. intros H s Hs. apply H, Hs. Qed.

Lemma hoare_modH (P : Sys -> Prop) (Post : unit -> Sys -> Prop) (f : Host -> Host) :
  (forall s, P s -> Post tt (mkSys (game s) (f (host s)))) -> hoare P (modH f) Post.
Proof. intros H s Hs. apply H, Hs. Qed.

Lemma hoare_when (P : Sys -> Prop) (Post : unit -> Sys -> Prop) (b : bool) (m : M unit) :
  (b = true -> hoare P m Post) -> (b = false -> forall s, P s -> Post tt s) -> hoare P (when b m) Post.
Proof.
  intros Ht Hf. destruct b; [ apply Ht; reflexivity | apply hoare_ret, Hf; reflexivity ].
Qed.

Lemma hoare_repeatM (I : Sys -> Prop) (n : nat) (body : M unit) :
  hoare I body (fun _ => I) -> hoare I (repeatM n body) (fun _ => I).
Proof.
  intros Hb. induction n as [ | n IH ]; simpl.
  - apply hoare_ret. auto.
  - eapply hoare_bind; [ exact Hb | intros ?; exact IH ].
Qed.

(** The loop rule: [I] is the loop invariant on the state, [E] an
    invariant of the elements. *)
Lemma hoare_forKeep {X : Type} (I : Sys -> Prop) (E : X -> Prop)
  (body : X -> M (option X)) (xs : list X) :
  (forall x, E x -> hoare I (body x) (fun r s => I s /\ forall x', r = Some x' -> E x')) ->
  Forall E xs ->
  hoare I (forKeep body xs) (fun kept s => I s /\ Forall E kept).
Proof.
  intros Hb. induction xs as [ | x xs IH ]; intros HE; simpl.
  - apply hoare_ret. intros s Hs. split; [ exact Hs | constructor ].
  - inversion HE as [ | ? ? Hx Hxs ]; subst.
    eapply hoare_bind; [ apply Hb, Hx | intros r ].
    intros s [ Hs Hr ]. destruct (IH Hxs s Hs) as [ Hs' Hkept ].
    split; [ exact Hs' | ].
    unfold eval, bind. simpl.
    destruct r as [ x' | ]; [ | exact Hkept ].
    constructor; [ apply Hr; reflexivity | exact Hkept ].
Qed.

(** A program that only spawns keeps every predicate that spawning keeps. *)
Lemma hoare_spawned {A : Type} (I : Sys -> Prop) (m : M A) :
  (forall s s', spawned s s' -> I s -> I s') ->
  tracks spawned m -> hoare I m (fun _ => I).
Proof. intros HI Hm s Hs. exact (HI _ _ (Hm s) Hs). Qed.

(** *** Well-formed games *)

(** With [strict = true], a session that is being played has a life
    left; [strict = false] describes the moment between the loss of a
    life and the respawn or the end of the game. *)
Record wellFormed (strict : bool) (g : Game) : Prop := mkWellFormed {
  wf_oxygen : 0 <= oxygen g <= MAX_OXYGEN;
  wf_lives : (0 <= playerLives g <= MAX_PLAYER_LIVES)%Z;
  wf_alive : strict = true ->
             gameStarted g = true -> gameOver g = false -> (1 <= playerLives g)%Z;
  wf_rate : 0 <= Diver.oxygenDepletionRate (diver g);
  wf_depth : 0 <= Diver.y (diver g);
  wf_combo : (0 <= Diver.comboCounter (diver g))%Z;
  wf_hearts : Forall heartOk (hearts g);
  wf_treasures : Forall treasureOk (treasures g);
  wf_bubbles : Forall bubbleOk (oxygenBubbles g);
  wf_bonus : Forall bonusOk (oxygenBonus g) }.

Definition WF (s : Sys) : Prop := wellFormed true (game s).
Definition WF0 (s : Sys) : Prop := wellFormed false (game s).

Lemma wellFormed_spawned (strict : bool) (s s' : Sys) :
  spawned s s' -> wellFormed strict (game s) -> wellFormed strict (game s').
Proof.
  intros [] []. constructor.
  all: try match goal with |- Forall _ _ => eapply extends_Forall; [ | eassumption | assumption ]; auto end.
  all: repeat match goal with H : _ = _ |- _ => try rewrite H; clear H end; assumption.
Qed.

Lemma WF_spawned (s s' : Sys) : spawned s s' -> WF s -> WF s'.
Proof. apply wellFormed_spawned. Qed.

Lemma WF0_spawned (s s' : Sys) : spawned s s' -> WF0 s -> WF0 s'.
Proof. apply wellFormed_spawned. Qed.

Create HintDb spawn.
#[local] Hint Resolve spawned_mathRandom spawned_playSound spawned_stopSound
  spawned_createExplosion spawned_createLevelUpEffect spawned_generateEnemies
  spawned_generateCrab spawned_generateHeart spawned_generateTreasures
  spawned_generateOxygenBubbles spawned_generateLargeOxygenBubble
  spawned_generateOxygenBonus spawned_setTimeout : spawn.

Ltac pre_split :=
  repeat match goal with
  | H : _ /\ _ |- _ => destruct H
  end.

(** A spawning call under a precondition that contains [WF]. *)
Ltac wf_spawn :=
  apply hoare_conseq with (P' := WF) (Post' := fun _ => WF);
  [ apply hoare_spawned; [ exact WF_spawned | solve [ auto with spawn nocore ] ]
  | intros ? ?; pre_split; assumption
  | intros ? ? ?; assumption ].

Create HintDb wf.

Ltac hstep :=
  match goal with
  | |- hoare _ (ret _) _ => apply hoare_ret; intros ? ?
  | |- hoare _ (bind getG _) _ => apply hoare_getG_bind; intros ?
  | |- hoare _ (bind mathRandom _) _ =>
      apply hoare_random_bind with (I := WF); [ wf_spawn | intros ? ? ]
  | |- hoare _ (bind _ _) _ => apply hoare_bind with (Pmid := fun _ => WF); [ | intros ? ]
  | |- hoare _ (when _ _) _ => apply hoare_when; [ intros ? | intros ? ? ? ]
  | |- hoare _ (if ?b then _ else _) _ => destruct b eqn:?
  | |- hoare _ (match ?x with _ => _ end) _ => destruct x eqn:?
  | |- hoare _ (modG _) _ => apply hoare_modG; intros ? ?
  | |- hoare _ (modD _) _ => apply hoare_modG; intros ? ?
  | |- hoare _ (modH _) _ => apply hoare_modH; intros ? ?
  | |- hoare _ (playSound _) _ => wf_spawn
  | |- hoare _ (stopSound _) _ => wf_spawn
  | |- hoare _ (createExplosion _ _ _) _ => wf_spawn
  | |- hoare _ (generateHeart _) _ => wf_spawn
  | |- hoare _ (generateTreasures _ _) _ => wf_spawn
  | |- hoare _ (generateEnemies _) _ => wf_spawn
  | |- hoare _ (generateOxygenBubbles _) _ => wf_spawn
  | |- hoare _ generateLargeOxygenBubble _ => wf_spawn
  | |- hoare _ generateOxygenBonus _ => wf_spawn
  | |- hoare _ generateCrab _ => wf_spawn
  | |- hoare _ createLevelUpEffect _ => wf_spawn
  | |- hoare _ _ (fun _ => WF) =>
      apply hoare_conseq with (P' := WF) (Post' := fun _ => WF);
      [ solve [ auto with wf nocore ]
      | intros ? ?; pre_split; assumption
      | intros ? ? ?; assumption ]
  end.

Ltac split_ifs :=
  repeat match goal with
  | |- context [ if ?b then _ else _ ] => destruct b eqn:?; cbn
  end.

(** The state after an assignment is well formed when the fields the
    invariant reads are untouched. *)
Ltac wf_leaf :=
  pre_split; subst;
  unfold WF, WF0 in *;
  try match goal with
  | H : wellFormed _ _ |- wellFormed _ _ =>
      destruct H; constructor; cbn; try assumption
  end.

(** Bounds of the clamped oxygen updates. *)
Ltac oxygen_bounds :=
  unfold MAX_OXYGEN, bubbleOk, bonusOk in *;
  repeat match goal with
  | |- _ /\ _ => split
  | |- _ <= Qmax _ _ => apply Qmax_lower
  | |- Qmax _ _ <= _ => apply Qmax_upper
  | |- Qmin _ _ <= _ => apply Qmin_upper
  | |- _ <= Qmin _ _ => apply Qmin_lower
  end;
  try lra.

(** The result of a loop body: the state is well formed and the element
    kept, if any, satisfies the element invariant (by [tac]). *)
Ltac wf_ret tac :=
  match goal with
  | |- wellFormed _ _ /\ (forall _, _ = Some _ -> _) =>
      split; [ assumption | first [ discriminate | intros ? [= <-]; tac ] ]
  end.

Lemma hoare_assert {A : Type} (P : Sys -> Prop) (Post : A -> Sys -> Prop) (m : M A)
  (F : Prop) :
  (forall s, P s -> F) -> (F -> hoare P m Post) -> hoare P m Post.
Proof. intros HF Hm s Hs. exact (Hm (HF s Hs) s Hs). Qed.

(** Symbolic execution from a known state. *)
Lemma hoare_fix {A : Type} (P : Sys -> Prop) (Post : A -> Sys -> Prop) (m : M A) :
  (forall s0, P s0 -> hoare (eq s0) m Post) -> hoare P m Post.
Proof. intros H s Hs. exact (H s Hs s eq_refl). Qed.

Lemma hoare_from {A B : Type} (s0 : Sys) (Post : B -> Sys -> Prop) (m : M A) (k : A -> M B) :
  hoare (eq (exec m s0)) (k (eval m s0)) Post -> hoare (eq s0) (bind m k) Post.
Proof. intros H s <-. exact (H _ eq_refl). Qed.

Lemma hoare_loop {X : Type} (P I : Sys -> Prop) (E : X -> Prop)
  (body : X -> M (option X)) (xs : list X) :
  (forall s, P s -> I s /\ Forall E xs) ->
  (forall x, E x -> hoare I (body x) (fun r s => I s /\ forall x', r = Some x' -> E x')) ->
  hoare P (forKeep body xs) (fun kept s => I s /\ Forall E kept).
Proof.
  intros HP Hb s Hs. destruct (HP s Hs) as [ HI HE ].
  exact (hoare_forKeep I E body xs Hb HE s HI).
Qed.

Lemma Forall_trivial {X : Type} (l : list X) : Forall (fun _ => True) l.
Proof. apply Forall_forall. intros; exact I. Qed.

Lemma fall_value (gravity scaleFactor : Q) (t : Treasure.t) :
  Treasure.value (fall gravity scaleFactor t) = Treasure.value t.
Proof. unfold fall. cbn. split_ifs; reflexivity. Qed.

Lemma WF_updateDiver (deltaTime : Q) : hoare WF (updateDiver deltaTime) (fun _ => WF).
Proof.
  unfold updateDiver. repeat hstep; wf_leaf.
  all: try apply Qmax_lower.
  all: try reflexivity.
Qed.

Lemma WF_fireHarpoon : hoare WF fireHarpoon (fun _ => WF).
Proof. unfold fireHarpoon. repeat hstep. wf_leaf. Qed.
#[local] Hint Resolve WF_updateDiver WF_fireHarpoon : wf.

Lemma WF_updateWeaponSystem (deltaTime : Q) :
  hoare WF (updateWeaponSystem deltaTime) (fun _ => WF).
Proof. unfold updateWeaponSystem. repeat hstep; wf_leaf. Qed.

Lemma WF_treasureBody (scaleFactor : Q) (t : Treasure.t) :
  treasureOk t ->
  hoare WF (treasureBody scaleFactor t)
        (fun r s => WF s /\ forall t', r = Some t' -> treasureOk t').
Proof.
  intros Ht. unfold treasureBody. repeat hstep; wf_leaf.
  all: try wf_ret ltac:(unfold treasureOk; rewrite fall_value; exact Ht).
  lia.
Qed.

Lemma WF_updateTreasures (deltaTime : Q) : hoare WF (updateTreasures deltaTime) (fun _ => WF).
Proof.
  unfold updateTreasures. apply hoare_getG_bind. intros g.
  eapply hoare_bind.
  - apply hoare_loop with (I := WF) (E := treasureOk).
    + intros s [ H <- ]. split; [ exact H | apply H ].
    + intros t Ht. apply WF_treasureBody, Ht.
  - intros kept. apply hoare_modG. intros s [ [] Hk ]. constructor; cbn; assumption.
Qed.

Lemma WF_heartBody (scaleFactor : Q) (h : Heart.t) :
  heartOk h ->
  hoare WF (heartBody scaleFactor h)
        (fun r s => WF s /\ forall h', r = Some h' -> heartOk h').
Proof.
  intros Hh. unfold heartBody. repeat hstep; wf_leaf.
  all: try wf_ret ltac:(unfold heartOk; rewrite fall_value; exact Hh).
  all: try rewrite fall_value; unfold heartOk, MAX_PLAYER_LIVES in *; intros; lia.
Qed.

Lemma WF_updateHearts (deltaTime : Q) : hoare WF (updateHearts deltaTime) (fun _ => WF).
Proof.
  unfold updateHearts. apply hoare_getG_bind. intros g.
  eapply hoare_bind.
  - apply hoare_loop with (I := WF) (E := heartOk).
    + intros s [ H <- ]. split; [ exact H | apply H ].
    + intros t Ht. apply WF_heartBody, Ht.
  - intros kept. apply hoare_modG. intros s [ [] Hk ]. constructor; cbn; assumption.
Qed.
#[local] Hint Resolve WF_updateWeaponSystem WF_updateTreasures WF_updateHearts : wf.

Lemma WF_setTimeout (count : nat) (delay : Q) : hoare WF (setTimeout count delay) (fun _ => WF).
Proof. unfold setTimeout. hstep. wf_leaf. Qed.
#[local] Hint Resolve WF_setTimeout : wf.

Lemma WF_harpoonHit (enemy : Enemy.t) (rest : list Harpoon.t) :
  hoare WF (harpoonHit enemy rest) (fun _ => WF).
Proof.
  unfold harpoonHit. repeat hstep; wf_leaf. all: lia.
Qed.
#[local] Hint Resolve WF_harpoonHit : wf.

Lemma WF_enemyBody (scaleFactor : Q) (enemy : Enemy.t) :
  hoare WF (enemyBody scaleFactor enemy) (fun _ => WF).
Proof.
  unfold enemyBody, enemyContact, enemyHarpoons. repeat hstep; wf_leaf.
  all: try oxygen_bounds.
  all: try reflexivity.
Qed.

Lemma WF_updateEnemies (deltaTime : Q) : hoare WF (updateEnemies deltaTime) (fun _ => WF).
Proof.
  unfold updateEnemies. apply hoare_getG_bind. intros g.
  eapply hoare_bind.
  - apply hoare_loop with (I := WF) (E := fun _ => True).
    + intros s [ H _ ]. split; [ exact H | apply Forall_trivial ].
    + intros e _. eapply hoare_conseq; [ apply WF_enemyBody | auto | ].
      intros ? s H. split; [ exact H | auto ].
  - intros kept. apply hoare_bind with (Pmid := fun _ => WF).
    + apply hoare_modG. intros s [ [] _ ]. constructor; cbn; assumption.
    + intros ?. repeat hstep; wf_leaf.
Qed.
#[local] Hint Resolve WF_updateEnemies : wf.

Lemma WF_crabBody (scaleFactor : Q) (crab : Crab.t) :
  hoare WF (crabBody scaleFactor crab) (fun _ => WF).
Proof.
  unfold crabBody. apply hoare_getG_bind. intros g.
  eapply hoare_bind.
  { apply hoare_loop with (I := WF) (E := treasureOk).
    - intros s [ H <- ]. split; [ exact H | apply H ].
    - intros t Ht. repeat hstep; wf_leaf.
      all: wf_ret ltac:(exact Ht). }
  intros keptTreasures. apply hoare_bind with (Pmid := fun _ => WF).
  { apply hoare_modG. intros s [ [] Hk ]. constructor; cbn; assumption. }
  intros ?. apply hoare_getG_bind. intros g'.
  eapply hoare_bind.
  { apply hoare_loop with (I := WF) (E := heartOk).
    - intros s [ H <- ]. split; [ exact H | apply H ].
    - intros h Hh. repeat hstep; wf_leaf.
      all: wf_ret ltac:(exact Hh). }
  intros keptHearts. apply hoare_bind with (Pmid := fun _ => WF).
  { apply hoare_modG. intros s [ [] Hk ]. constructor; cbn; assumption. }
  intros ?. repeat hstep; wf_leaf.
Qed.

Lemma WF_updateCrabs (deltaTime : Q) : hoare WF (updateCrabs deltaTime) (fun _ => WF).
Proof.
  unfold updateCrabs. apply hoare_getG_bind. intros g.
  apply hoare_bind with (Pmid := fun _ => WF).
  { repeat hstep; wf_leaf. }
  intros ?. apply hoare_getG_bind. intros g'.
  eapply hoare_bind.
  - apply hoare_loop with (I := WF) (E := fun _ => True).
    + intros s [ H _ ]. split; [ exact H | apply Forall_trivial ].
    + intros c _. eapply hoare_conseq; [ apply WF_crabBody | auto | ].
      intros ? s H. split; [ exact H | auto ].
  - intros kept. apply hoare_modG. intros s [ [] _ ]. constructor; cbn; assumption.
Qed.
#[local] Hint Resolve WF_updateCrabs : wf.

Lemma bubbleMotion_oxygenAmount (scaleFactor : Q) (b : OxygenBubble.t) :
  OxygenBubble.oxygenAmount (bubbleMotion scaleFactor b) = OxygenBubble.oxygenAmount b.
Proof.
  unfold bubbleMotion. cbn.
  destruct (OxygenBubble.isLarge b); [ destruct (OxygenBubble.pulse b) | ]; reflexivity.
Qed.

Lemma WF_bubbleBody (scaleFactor : Q) (b : OxygenBubble.t) :
  bubbleOk b ->
  hoare WF (bubbleBody scaleFactor b)
        (fun r s => WF s /\ forall b', r = Some b' -> bubbleOk b').
Proof.
  intros Hb. unfold bubbleBody. repeat hstep; wf_leaf.
  all: try (split; [ assumption | ];
            match goal with |- forall _, (if ?c then _ else _) = _ -> _ => destruct c end;
            [ discriminate | intros ? [= <-]; unfold bubbleOk; rewrite bubbleMotion_oxygenAmount; exact Hb ]).
  rewrite bubbleMotion_oxygenAmount. oxygen_bounds.
Qed.

Lemma depletion_nonneg (rate y scaleFactor : Q) :
  0 <= rate -> 0 <= y -> 0 <= scaleFactor ->
  0 <= (rate * (1.0 + y / canvas_height)) * scaleFactor.
Proof.
  intros Hr Hy Hs. apply Qmult_le_0_compat; [ | exact Hs ].
  apply Qmult_le_0_compat; [ exact Hr | ].
  assert (0 <= y / canvas_height).
  { apply Qmult_le_0_compat; [ exact Hy | ]. apply Qinv_le_0_compat. discriminate. }
  lra.
Qed.

Lemma WF_oxygenAndBubbles (deltaTime : Q) :
  0 <= deltaTime -> hoare WF (oxygenAndBubbles deltaTime) (fun _ => WF).
Proof.
  intros Hdt. unfold oxygenAndBubbles. apply hoare_getG_bind. intros g.
  apply hoare_bind with (Pmid := fun _ => WF).
  { hstep. wf_leaf.
    pose proof (depletion_nonneg _ _ _ wf_rate0 wf_depth0 (scaleOf_nonneg _ Hdt)).
    oxygen_bounds. }
  intros ?. apply hoare_getG_bind. intros g'.
  apply hoare_bind with (Pmid := fun _ => WF). { repeat hstep; wf_leaf. }
  intros ?. apply hoare_bind with (Pmid := fun _ => WF). { repeat hstep; wf_leaf. }
  intros ?. apply hoare_getG_bind. intros g''. eapply hoare_bind.
  { apply hoare_loop with (I := WF) (E := bubbleOk).
    - intros s [ H <- ]. split; [ exact H | apply H ].
    - intros b Hb. apply WF_bubbleBody, Hb. }
  intros kept. apply hoare_bind with (Pmid := fun _ => WF).
  { apply hoare_modG. intros s [ [] Hk ]. constructor; cbn; assumption. }
  intros ?. repeat hstep; wf_leaf.
Qed.

Lemma WF0_createExplosion (x y : Q) (color : Color) :
  hoare WF0 (createExplosion x y color) (fun _ => WF0).
Proof. apply hoare_spawned; [ exact WF0_spawned | apply spawned_createExplosion ]. Qed.

Lemma WF_endGame : hoare WF0 endGame (fun _ => WF).
Proof.
  unfold endGame. apply hoare_bind with (Pmid := fun _ => WF).
  - hstep. wf_leaf. discriminate.
  - intros ?. repeat hstep; wf_leaf.
Qed.

Lemma WF_oxygenExhausted : hoare WF oxygenExhausted (fun _ => WF).
Proof.
  unfold oxygenExhausted. apply hoare_getG_bind. intros g.
  apply hoare_when; [ intros Hc | intros _ s [ H _ ]; exact H ].
  apply andb_prop in Hc. destruct Hc as [ Hc Hover ].
  apply andb_prop in Hc. destruct Hc as [ _ Hstarted ].
  apply negb_true_iff in Hover.
  apply hoare_bind with (Pmid := fun _ => WF0).
  { hstep. wf_leaf.
    - unfold MAX_PLAYER_LIVES in *.
      pose proof (wf_alive0 eq_refl Hstarted Hover). lia.
    - discriminate. }
  intros ?. apply hoare_bind with (Pmid := fun _ => WF0).
  { apply hoare_conseq with (P' := WF0) (Post' := fun _ => WF0);
      [ apply WF0_createExplosion | auto | auto ]. }
  intros ?. apply hoare_getG_bind. intros g'.
  destruct (0 <? playerLives g')%Z eqn:Hl.
  - apply hoare_modG. intros s [ H <- ]. apply Z.ltb_lt in Hl.
    unfold WF, WF0 in *. destruct H. unfold respawn. constructor; cbn; try assumption.
    + unfold MAX_OXYGEN. split; [ | ]; (apply Qle_bool_imp_le; reflexivity).
    + intros. lia.
    + apply Qle_bool_imp_le; reflexivity.
    + reflexivity.
  - apply hoare_conseq with (P' := WF0) (Post' := fun _ => WF);
      [ apply WF_endGame | intros s [ H _ ]; exact H | auto ].
Qed.

Lemma WF_updateOxygenBubbles (deltaTime : Q) :
  0 <= deltaTime -> hoare WF (updateOxygenBubbles deltaTime) (fun _ => WF).
Proof.
  intros Hdt. unfold updateOxygenBubbles.
  apply hoare_bind with (Pmid := fun _ => WF);
    [ apply WF_oxygenAndBubbles, Hdt | intros ?; apply WF_oxygenExhausted ].
Qed.
#[local] Hint Resolve WF_updateOxygenBubbles : wf.

Lemma bonusMotion_value (scaleFactor : Q) (o : OxygenBonus.t) :
  OxygenBonus.value (bonusMotion scaleFactor o) = OxygenBonus.value o.
Proof. unfold bonusMotion. cbn. split_ifs; reflexivity. Qed.

Lemma WF_bonusBody (scaleFactor : Q) (o : OxygenBonus.t) :
  bonusOk o ->
  hoare WF (bonusBody scaleFactor o)
        (fun r s => WF s /\ forall o', r = Some o' -> bonusOk o').
Proof.
  intros Ho. assert (Hv : OxygenBonus.value (bonusMotion scaleFactor o) == 150).
  { rewrite bonusMotion_value, Ho. reflexivity. }
  unfold bonusBody. repeat hstep; wf_leaf.
  all: try (split; [ assumption | ];
            first [ discriminate
                  | match goal with |- forall _, (if ?c then _ else _) = _ -> _ => destruct c end;
                    [ intros ? [= <-]; unfold bonusOk; rewrite bonusMotion_value; exact Ho
                    | discriminate ] ]).
  all: try lia.
  all: oxygen_bounds.
Qed.

Lemma WF_updateOxygenBonus (deltaTime : Q) :
  hoare WF (updateOxygenBonus deltaTime) (fun _ => WF).
Proof.
  unfold updateOxygenBonus. apply hoare_getG_bind. intros g.
  apply hoare_bind with (Pmid := fun _ => WF).
  { repeat hstep; wf_leaf. }
  intros ?. apply hoare_getG_bind. intros g'. eapply hoare_bind.
  - apply hoare_loop with (I := WF) (E := bonusOk).
    + intros s [ H <- ]. split; [ exact H | apply H ].
    + intros o Ho. apply WF_bonusBody, Ho.
  - intros kept. apply hoare_modG. intros s [ [] Hk ]. constructor; cbn; assumption.
Qed.

Lemma WF_updateParticles (deltaTime : Q) : hoare WF (updateParticles deltaTime) (fun _ => WF).
Proof. unfold updateParticles. hstep. wf_leaf. Qed.

Lemma WF_updateLevel : hoare WF updateLevel (fun _ => WF).
Proof. unfold updateLevel. repeat hstep; wf_leaf. lra. Qed.
#[local] Hint Resolve WF_updateOxygenBonus WF_updateParticles WF_updateLevel : wf.

Lemma WF_update (deltaTime : Q) : 0 <= deltaTime -> hoare WF (update deltaTime) (fun _ => WF).
Proof.
  intros Hdt. pose proof (WF_updateOxygenBubbles deltaTime Hdt).
  unfold update. repeat hstep; wf_leaf.
Qed.

Lemma WF_gameLoop (timestamp : Q) :
  hoare (fun s => WF s /\ lastUpdateTime (game s) <= timestamp) (gameLoop timestamp)
        (fun _ => WF).
Proof.
  unfold gameLoop, render, requestAnimationFrame. apply hoare_getG_bind. intros g.
  apply hoare_assert with (F := 0 <= timestamp - lastUpdateTime g).
  { intros s [ [ _ H ] <- ]. lra. }
  intros Hdt. pose proof (WF_update _ Hdt).
  apply hoare_bind with (Pmid := fun _ => WF). { hstep. wf_leaf. }
  intros ?. destruct (Qltb 100 (timestamp - lastUpdateTime g)).
  - apply hoare_bind with (Pmid := fun _ => WF).
    + intros s Hs. exact Hs.
    + intros ?. hstep. wf_leaf.
  - apply hoare_bind with (Pmid := fun _ => WF). { repeat hstep; wf_leaf. }
    intros ?. apply hoare_bind with (Pmid := fun _ => WF). { hstep. assumption. }
    intros ?. apply hoare_bind with (Pmid := fun _ => WF).
    + intros s Hs. exact Hs.
    + intros ?. hstep. wf_leaf.
Qed.


Lemma WF_requestAnimationFrame : hoare WF requestAnimationFrame (fun _ => WF).
Proof. intros s Hs. exact Hs. Qed.

Lemma WF_cancelAnimationFrame (id : nat) : hoare WF (cancelAnimationFrame id) (fun _ => WF).
Proof. intros s Hs. exact Hs. Qed.
#[local] Hint Resolve WF_requestAnimationFrame WF_cancelAnimationFrame : wf.

Lemma WF_init (now : Q) : hoare (fun _ => True) (init now) (fun _ => WF).
Proof.
  apply hoare_fix. intros s0 _. unfold init.
  do 8 apply hoare_from.
  apply hoare_conseq with (P' := WF) (Post' := fun _ => WF); [ | | auto ].
  - repeat hstep; wf_leaf.
  - intros s <-. constructor; cbn.
    all: try (constructor; fail).
    all: try (unfold MAX_OXYGEN, MAX_PLAYER_LIVES; split; first [ lia | apply Qle_bool_imp_le; reflexivity ]).
    all: try (apply Qle_bool_imp_le; reflexivity).
    all: intros; lia.
Qed.

Lemma WF_handleKeyDown (key : string) (now : Q) :
  hoare WF (handleKeyDown key now) (fun _ => WF).
Proof.
  unfold handleKeyDown. repeat hstep; wf_leaf.
  intros s _. apply (WF_init now s I).
Qed.

Lemma WF_handleKeyUp (key : string) : hoare WF (handleKeyUp key) (fun _ => WF).
Proof. unfold handleKeyUp. repeat hstep; wf_leaf. Qed.

Lemma WF_fireTimeout (i : nat) : hoare WF (fireTimeout i) (fun _ => WF).
Proof.
  intros s Hs. unfold fireTimeout, exec.
  destruct (nth_error (timeouts (host s)) i) as [ [ delay count ] | ]; [ | exact Hs ].
  apply (hoare_spawned WF (generateEnemies count) WF_spawned (spawned_generateEnemies count)).
  exact Hs.
Qed.

Lemma WF_handle (e : Event) :
  hoare (fun s => WF s /\ clockOk e s) (handle e) (fun _ => WF).
Proof.
  destruct e as [ timestamp | key now | key | i ]; simpl.
  - apply WF_gameLoop.
  - eapply hoare_conseq; [ apply WF_handleKeyDown | intros s [ H _ ]; exact H | auto ].
  - eapply hoare_conseq; [ apply WF_handleKeyUp | intros s [ H _ ]; exact H | auto ].
  - eapply hoare_conseq; [ apply WF_fireTimeout | intros s [ H _ ]; exact H | auto ].
Qed.

Lemma WF_initialSys (now : Q) : WF (initialSys now).
Proof.
  constructor; cbn.
  all: try (constructor; fail).
  all: try (unfold MAX_OXYGEN, MAX_PLAYER_LIVES; split; first [ lia | apply Qle_bool_imp_le; reflexivity ]).
  all: try (apply Qle_bool_imp_le; reflexivity).
  all: intros; lia.
Qed.

Lemma reachableForward_reachable (now : Q) (s : Sys) :
  reachableForward now s -> reachable now s.
Proof. induction 1; constructor; assumption. Qed.

Lemma WF_reachableForward (now : Q) (s : Sys) : reachableForward now s -> WF s.
Proof.
  induction 1 as [ | s e Hr IH Hc ].
  - apply WF_initialSys.
  - apply (WF_handle e s). split; assumption.
Qed.

(** As long as no frame of a session has a negative [deltaTime], the
    oxygen level lies between 0 and MAX_OXYGEN and the number of lives
    between 0 and MAX_PLAYER_LIVES.  The restriction cannot be dropped:
    see [oxygen_above_max_after_early_frame] below. *)
Lemma bounds_while_clock_forward (now : Q) (s : Sys) :
  reachableForward now s ->
  0 <= oxygen (game s) <= MAX_OXYGEN /\
  (0 <= playerLives (game s) <= MAX_PLAYER_LIVES)%Z.
Proof.
  intros Hr. destruct (WF_reachableForward now s Hr). split; assumption.
Qed.

(** *** Symbolic execution *)

Lemma exec_getG (s : Sys) : exec getG s = s.
Proof. reflexivity. Qed.

Lemma eval_getG (s : Sys) : eval getG s = game s.
Proof. reflexivity. Qed.

Lemma exec_modG (f : Game -> Game) (s : Sys) : exec (modG f) s = mkSys (f (game s)) (host s).
Proof. reflexivity. Qed.

Lemma exec_modD (f : Diver.t -> Diver.t) (s : Sys) :
  exec (modD f) s = mkSys (upd_diver f (game s)) (host s).
Proof. reflexivity. Qed.

Lemma exec_modH (f : Host -> Host) (s : Sys) : exec (modH f) s = mkSys (game s) (f (host s)).
Proof. reflexivity. Qed.

Lemma exec_ret {A : Type} (a : A) (s : Sys) : exec (ret a) s = s.
Proof. reflexivity. Qed.

Lemma eval_ret {A : Type} (a : A) (s : Sys) : eval (ret a) s = a.
Proof. reflexivity. Qed.

Lemma exec_if {A : Type} (b : bool) (m1 m2 : M A) (s : Sys) :
  exec (if b then m1 else m2) s = if b then exec m1 s else exec m2 s.
Proof. destruct b; reflexivity. Qed.

Ltac mstep :=
  rewrite exec_bind; cbv beta;
  repeat match goal with
  | |- context [ eval getG ?x ] => change (eval getG x) with (game x)
  | |- context [ exec getG ?x ] => change (exec getG x) with x
  end.

(** ** Oxygen exhaustion (C2) *)

Lemma oxygenExhausted_spec (s : Sys) :
  oxygen (game s) <= 0 -> gameStarted (game s) = true -> gameOver (game s) = false ->
  let s' := exec oxygenExhausted s in
  playerLives (game s') = (playerLives (game s) - 1)%Z /\
  ((0 < playerLives (game s'))%Z ->
     Diver.x (diver (game s')) = canvas_width / 2 /\
     Diver.y (diver (game s')) = canvas_height / 2 /\
     oxygen (game s') = MAX_OXYGEN / 2 /\
     Diver.comboCounter (diver (game s')) = 0%Z /\
     Diver.comboTimer (diver (game s')) = 0 /\
     Diver.isShieldActive (diver (game s')) = true /\
     Diver.shieldTimer (diver (game s')) = 180 /\
     gameStarted (game s') = true /\ gameOver (game s') = false /\
     uiGameState (host s') = uiGameState (host s) /\
     finalScore (host s') = finalScore (host s)) /\
  ((playerLives (game s') <= 0)%Z ->
     gameOver (game s') = true /\
     uiGameState (host s') = UiOver /\
     finalScore (host s') = score (game s) /\
     score (game s') = score (game s) /\
     diver (game s') = diver (game s)).
Proof.
  intros Ho Hs Hg.
  assert (Hexec : exists s2,
    spawned (mkSys (set_playerLives (playerLives (game s) - 1) (game s)) (host s)) s2 /\
    exec oxygenExhausted s =
      if (0 <? playerLives (game s2))%Z then exec (modG respawn) s2 else exec endGame s2).
  { unfold oxygenExhausted. mstep.
    apply Qleb_le in Ho. rewrite Ho, Hs, Hg. cbn [andb negb]. rewrite exec_when_true.
    mstep. rewrite exec_modG. mstep.
    eexists. split; [ | mstep; rewrite exec_if; reflexivity ].
    apply spawned_createExplosion. }
  destruct Hexec as (s2 & [] & ->). cbn in *.
  destruct (0 <? playerLives (game s2))%Z eqn:Hl.
  - unfold respawn. cbn.
    split; [ assumption | ]. split.
    + intros _. repeat split; congruence.
    + intros Hle. apply Z.ltb_lt in Hl. lia.
  - unfold endGame. cbn.
    split; [ assumption | ]. split.
    + intros Hlt. apply Z.ltb_ge in Hl. lia.
    + intros _. repeat split; congruence.
Qed.

(** C2.  When the oxygen is at 0 at the end of the oxygen subsystem in a
    session that is being played, a life is lost; with a life left the
    player respawns at the centre of the arena with half of MAX_OXYGEN,
    the combo cleared and a shield of 180 frame units (3 seconds at 60
    frames per second), and the session goes on; with no life left the
    game is over and the recorded final score is the score at that
    moment. *)
Theorem oxygen_exhaustion (deltaTime : Q) (s : Sys) :
  let s1 := exec (oxygenAndBubbles deltaTime) s in
  let s' := exec (updateOxygenBubbles deltaTime) s in
  oxygen (game s1) <= 0 -> gameStarted (game s1) = true -> gameOver (game s1) = false ->
  playerLives (game s') = (playerLives (game s1) - 1)%Z /\
  ((0 < playerLives (game s'))%Z ->
     Diver.x (diver (game s')) = canvas_width / 2 /\
     Diver.y (diver (game s')) = canvas_height / 2 /\
     oxygen (game s') = MAX_OXYGEN / 2 /\
     Diver.comboCounter (diver (game s')) = 0%Z /\
     Diver.comboTimer (diver (game s')) = 0 /\
     Diver.isShieldActive (diver (game s')) = true /\
     Diver.shieldTimer (diver (game s')) = 180 /\
     Diver.shieldTimer (diver (game s')) * (1000 / 60) == 3000 /\
     gameStarted (game s') = true /\ gameOver (game s') = false /\
     uiGameState (host s') = uiGameState (host s1)) /\
  ((playerLives (game s') <= 0)%Z ->
     gameOver (game s') = true /\
     uiGameState (host s') = UiOver /\
     finalScore (host s') = score (game s1) /\
     score (game s') = score (game s1)).
Proof.
  intros s1 s' Ho Hs Hg.
  destruct (oxygenExhausted_spec s1 Ho Hs Hg) as (Hl & Hre & Hend).
  change (exec oxygenExhausted s1) with s' in *.
  split; [ exact Hl | ]. split.
  - intros Hpos. destruct (Hre Hpos) as (Hx & Hy & Hox & Hc & Ht & Hsh & Hst & Hgs & Hgo & Hui & _).
    repeat split; try assumption. rewrite Hst. reflexivity.
  - intros Hle. destruct (Hend Hle) as (H1 & H2 & H3 & H4 & _). repeat split; assumption.
Qed.

(** ** Harpoon hits (C3) *)


Lemma findHit_none (target : GameObject.t) (isShark : bool) (hs : list Harpoon.t) :
  findHit target isShark hs = None <->
  Forall (fun h => isColliding false (Harpoon.rect h) target isShark = false) hs.
Proof.
  induction hs as [ | h hs IH ]; simpl.
  - split; [ constructor | reflexivity ].
  - destruct (isColliding false (Harpoon.rect h) target isShark) eqn:Hc.
    + split; [ discriminate | ]. intros H. inversion H; congruence.
    + destruct (findHit target isShark hs) as [ [ hit' rest' ] | ].
      * split; [ discriminate | ]. intros H. inversion H; subst.
        apply IH in H3. discriminate.
      * split; [ | reflexivity ]. intros _. constructor; [ exact Hc | ]. apply IH. reflexivity.
Qed.

Lemma eval_if {A : Type} (b : bool) (m1 m2 : M A) (s : Sys) :
  eval (if b then m1 else m2) s = if b then eval m1 s else eval m2 s.
Proof. destruct b; reflexivity. Qed.

Ltac spawn_call :=
  idtac;
  match goal with
  | |- tracks _ mathRandom => apply spawned_mathRandom
  | |- tracks _ (playSound _) => apply spawned_playSound
  | |- tracks _ (stopSound _) => apply spawned_stopSound
  | |- tracks _ (setTimeout _ _) => apply spawned_setTimeout
  | |- tracks _ (createExplosion _ _ _) => apply spawned_createExplosion
  | |- tracks _ createLevelUpEffect => apply spawned_createLevelUpEffect
  | |- tracks _ (generateEnemies _) => apply spawned_generateEnemies
  | |- tracks _ generateCrab => apply spawned_generateCrab
  | |- tracks _ (generateHeart _) => apply spawned_generateHeart
  | |- tracks _ (generateTreasures _ _) => apply spawned_generateTreasures
  | |- tracks _ (generateOxygenBubbles _) => apply spawned_generateOxygenBubbles
  | |- tracks _ generateLargeOxygenBubble => apply spawned_generateLargeOxygenBubble
  | |- tracks _ generateOxygenBonus => apply spawned_generateOxygenBonus
  end.

Ltac spawning := track spawned_refl spawned_trans spawn_call.



(** What [None] and [Some] mean for the array: an element whose body
    returns [None] leaves no element behind. *)
Lemma forKeep_cons {X : Type} (body : X -> M (option X)) (x : X) (xs : list X) (s : Sys) :
  eval (forKeep body (x :: xs)) s =
    match eval (body x) s with
    | Some x' => x' :: eval (forKeep body xs) (exec (body x) s)
    | None => eval (forKeep body xs) (exec (body x) s)
    end /\
  exec (forKeep body (x :: xs)) s = exec (forKeep body xs) (exec (body x) s).
Proof. split; reflexivity. Qed.









(** ** Level progression (C7) *)

Lemma updateLevel_exec (s : Sys) :
  let up := ((2000 * level (game s) <=? score (game s))%Z && (level (game s) <? 5)%Z)%bool in
  (up = true ->
     spawned (mkSys (upd_diver (fun d => Diver.set_oxygenDepletionRate
                                  (Diver.oxygenDepletionRate d + 0.02) d)
                      (set_level (level (game s) + 1) (game s))) (host s))
             (exec updateLevel s)) /\
  (up = false -> exec updateLevel s = s).
Proof.
  intros up. subst up. unfold updateLevel. mstep. cbv zeta. split; intros Hup; rewrite Hup.
  - rewrite exec_when_true. mstep. mstep. mstep. rewrite exec_modG, exec_modD.
    match goal with |- spawned _ (exec ?m _) => assert (Ht : tracks spawned m) by spawning end.
    apply Ht.
  - reflexivity.
Qed.

(** C7.  The progression check raises the level, by one, exactly when
    score >= 2000 * level and level < 5; it then adds 0.02 to the
    oxygen depletion rate of the player; otherwise (in particular at
    level 5 or more, whatever the score) it changes nothing. *)
Theorem level_up_rule (s : Sys) :
  let s' := exec updateLevel s in
  (level (game s') = (level (game s) + 1)%Z <->
     (2000 * level (game s) <= score (game s))%Z /\ (level (game s) < 5)%Z) /\
  (level (game s') = (level (game s) + 1)%Z \/ s' = s) /\
  (level (game s') = (level (game s) + 1)%Z ->
     Diver.oxygenDepletionRate (diver (game s')) =
       Diver.oxygenDepletionRate (diver (game s)) + 0.02) /\
  ((5 <= level (game s))%Z -> s' = s) /\
  (forall L : Z, (L < 5)%Z -> level (game s) = L -> score (game s) = (2000 * L)%Z ->
     level (game s') = (L + 1)%Z).
Proof.
  intros s'. subst s'. destruct (updateLevel_exec s) as [ Hup Hno ]. cbv zeta in Hup, Hno.
  destruct ((2000 * level (game s) <=? score (game s))%Z && (level (game s) <? 5)%Z)%bool eqn:E.
  - specialize (Hup eq_refl). destruct Hup. cbn in *.
    apply andb_prop in E. destruct E as [ E1 E2 ]. apply Z.leb_le in E1. apply Z.ltb_lt in E2.
    split; [ | split; [ | split; [ | split ] ] ].
    + split; [ intros _; split; assumption | intros _; assumption ].
    + left. assumption.
    + intros _. rewrite sp_diver0. reflexivity.
    + intros H5. lia.
    + intros L HL HE Hs. lia.
  - rewrite (Hno eq_refl).
    apply andb_false_iff in E.
    assert (Hn : ~ ((2000 * level (game s) <= score (game s))%Z /\ (level (game s) < 5)%Z)).
    { intros [ H1 H2 ]. destruct E as [ E | E ];
        [ apply Z.leb_gt in E | apply Z.ltb_ge in E ]; lia. }
    split; [ | split; [ | split; [ | split ] ] ].
    + split; [ intros H; lia | intros H; contradiction ].
    + right. reflexivity.
    + intros H. lia.
    + intros _. reflexivity.
    + intros L HL HE Hs. exfalso. apply Hn. split; lia.
Qed.

(** ** Hearts at the maximum of lives (C10) *)

Lemma heartBody_full (scaleFactor : Q) (heart : Heart.t) (s : Sys) :
  (MAX_PLAYER_LIVES <= playerLives (game s))%Z ->
  exec (heartBody scaleFactor heart) s = s /\
  eval (heartBody scaleFactor heart) s =
    if isColliding true (Diver.box (diver (game s)))
         (Heart.box (fall (GRAVITY * 0.8) scaleFactor heart)) false
    then None else Some (fall (GRAVITY * 0.8) scaleFactor heart).
Proof.
  intros Hmax. apply Z.ltb_ge in Hmax. unfold heartBody. cbv zeta.
  rewrite eval_bind. mstep. rewrite exec_if, eval_if. rewrite Hmax.
  split; match goal with |- context [ if ?b then _ else _ ] => destruct b end; reflexivity.
Qed.

Lemma forKeep_hearts_full (scaleFactor : Q) (hs : list Heart.t) (s : Sys) :
  (MAX_PLAYER_LIVES <= playerLives (game s))%Z ->
  exec (forKeep (heartBody scaleFactor) hs) s = s /\
  eval (forKeep (heartBody scaleFactor) hs) s =
    filter (fun heart => negb (isColliding true (Diver.box (diver (game s)))
                                 (Heart.box heart) false))
           (map (fall (GRAVITY * 0.8) scaleFactor) hs).
Proof.
  intros Hmax. induction hs as [ | h hs IH ].
  - split; reflexivity.
  - destruct (forKeep_cons (heartBody scaleFactor) h hs s) as [ Ev Ex ].
    destruct (heartBody_full scaleFactor h s Hmax) as [ Hs Hr ].
    destruct IH as [ IHs IHr ].
    rewrite Ev, Ex, Hs, Hr, IHs, IHr. split; [ reflexivity | ].
    simpl. destruct (isColliding true _ _ false); reflexivity.
Qed.

(** C10.  With the lives at the maximum, [updateHearts] only moves the
    hearts and removes those the player overlaps: lives, score, combo
    counter and timer, particles and everything else stay as they are
    (the host too: no call of [Math.random], no sound); and the heart
    factory creates nothing. *)
Theorem hearts_at_max_lives (deltaTime : Q) (s : Sys) :
  (MAX_PLAYER_LIVES <= playerLives (game s))%Z ->
  exec (updateHearts deltaTime) s =
    mkSys (set_hearts
             (filter (fun heart => negb (isColliding true (Diver.box (diver (game s)))
                                           (Heart.box heart) false))
                     (map (fall (GRAVITY * 0.8) (scaleOf deltaTime)) (hearts (game s))))
             (game s))
          (host s) /\
  (let s' := exec (updateHearts deltaTime) s in
   playerLives (game s') = playerLives (game s) /\
   score (game s') = score (game s) /\
   Diver.comboCounter (diver (game s')) = Diver.comboCounter (diver (game s)) /\
   Diver.comboTimer (diver (game s')) = Diver.comboTimer (diver (game s)) /\
   particles (game s') = particles (game s)) /\
  (forall position, exec (generateHeart position) s = s).
Proof.
  intros Hmax.
  assert (E : exec (updateHearts deltaTime) s =
    mkSys (set_hearts
             (filter (fun heart => negb (isColliding true (Diver.box (diver (game s)))
                                           (Heart.box heart) false))
                     (map (fall (GRAVITY * 0.8) (scaleOf deltaTime)) (hearts (game s))))
             (game s))
          (host s)).
  { unfold updateHearts. cbv zeta. mstep. mstep. rewrite exec_modG.
    destruct (forKeep_hearts_full (scaleOf deltaTime) (hearts (game s)) s Hmax) as [ Hs Hr ].
    rewrite Hs, Hr. reflexivity. }
  split; [ exact E | ]. split.
  - cbv zeta. rewrite E. cbn. repeat split.
  - intros position. unfold generateHeart. mstep.
    apply Z.leb_le in Hmax. rewrite Hmax. reflexivity.
Qed.

(** ** The runaway threshold (C5) *)

(** C5 (amended).  When the elapsed time exceeds 100 ms, the frame
    callback records the timestamp as the time of the last update,
    requests the next frame and stores its id; every other field of the
    game object and of the host keeps its value. *)
Theorem runaway_frame_skipped (timestamp : Q) (s : Sys) :
  100 < timestamp - lastUpdateTime (game s) ->
  exec (gameLoop timestamp) s =
    mkSys (set_animationFrameId (Some (S (frameRequests (host s))))
             (set_lastUpdateTime timestamp (game s)))
          (set_frameRequests (S (frameRequests (host s))) (host s)).
Proof.
  intros Hdt. apply Qltb_lt in Hdt. unfold gameLoop. mstep. cbv zeta. mstep.
  rewrite Hdt. reflexivity.
Qed.

(** ** Depth-scaled depletion (C4) *)

(** Calls that touch the host only. *)
Definition sameGame (s s' : Sys) : Prop := game s' = game s.

Lemma sameGame_refl (s : Sys) : sameGame s s.
Proof. reflexivity. Qed.

Lemma sameGame_trans (s1 s2 s3 : Sys) : sameGame s1 s2 -> sameGame s2 s3 -> sameGame s1 s3.
Proof. unfold sameGame. congruence. Qed.

Ltac host_call :=
  idtac;
  match goal with
  | |- tracks _ mathRandom => intros ?; reflexivity
  | |- tracks _ (playSound _) => intros ?; reflexivity
  | |- tracks _ (stopSound _) => intros ?; reflexivity
  | |- tracks _ (setTimeout _ _) => intros ?; reflexivity
  end.

Ltac host_only := track sameGame_refl sameGame_trans host_call.

(** No bubble touches the player in this tick. *)
Definition bubblesMissed (scaleFactor : Q) (d : Diver.t) (bs : list OxygenBubble.t) : Prop :=
  Forall (fun bubble =>
            isCollidingCircle true (Diver.box d) (bubbleMotion scaleFactor bubble) = false) bs.

Lemma bubbleBody_missed (scaleFactor : Q) (bubble : OxygenBubble.t) (s : Sys) :
  isCollidingCircle true (Diver.box (diver (game s))) (bubbleMotion scaleFactor bubble) = false ->
  exec (bubbleBody scaleFactor bubble) s = s.
Proof.
  intros Hm. unfold bubbleBody. cbv zeta. mstep. rewrite Hm. reflexivity.
Qed.

Lemma forKeep_bubbles_missed (scaleFactor : Q) (bs : list OxygenBubble.t) (s : Sys) :
  bubblesMissed scaleFactor (diver (game s)) bs ->
  exec (forKeep (bubbleBody scaleFactor) bs) s = s.
Proof.
  intros Hm. induction Hm as [ | b bs Hb Hbs IH ].
  - reflexivity.
  - destruct (forKeep_cons (bubbleBody scaleFactor) b bs s) as [ _ Ex ].
    rewrite Ex, (bubbleBody_missed _ _ _ Hb). exact IH.
Qed.

(** What one bubble does to the oxygen level [o] of a player [d]: if,
    after its motion of this tick, it touches the player, its amount is
    added and the sum is capped at MAX_OXYGEN. *)
Definition collect (scaleFactor : Q) (d : Diver.t) (o : Q) (bubble : OxygenBubble.t) : Q :=
  if isCollidingCircle true (Diver.box d) (bubbleMotion scaleFactor bubble)
  then Qmin MAX_OXYGEN (o + OxygenBubble.oxygenAmount (bubbleMotion scaleFactor bubble))
  else o.

Lemma bubbleBody_oxygen (scaleFactor : Q) (bubble : OxygenBubble.t) (s : Sys) :
  oxygen (game (exec (bubbleBody scaleFactor bubble) s))
    = collect scaleFactor (diver (game s)) (oxygen (game s)) bubble /\
  diver (game (exec (bubbleBody scaleFactor bubble) s)) = diver (game s).
Proof.
  unfold bubbleBody, collect. cbv zeta. mstep. mstep. rewrite exec_ret.
  destruct (isCollidingCircle true (Diver.box (diver (game s)))
              (bubbleMotion scaleFactor bubble)).
  - mstep. rewrite exec_modG.
    match goal with |- context [ exec ?m (mkSys ?g ?h) ] =>
      assert (Ht : tracks spawned m) by spawning; destruct (Ht (mkSys g h))
    end.
    split; [ rewrite sp_oxygen0 | rewrite sp_diver0 ]; reflexivity.
  - split; reflexivity.
Qed.

Lemma forKeep_bubbles_oxygen (scaleFactor : Q) (bs : list OxygenBubble.t) (s : Sys) :
  oxygen (game (exec (forKeep (bubbleBody scaleFactor) bs) s))
    = fold_left (collect scaleFactor (diver (game s))) bs (oxygen (game s)) /\
  diver (game (exec (forKeep (bubbleBody scaleFactor) bs) s)) = diver (game s).
Proof.
  revert s. induction bs as [ | b bs IH ]; intros s; [ split; reflexivity | ].
  destruct (forKeep_cons (bubbleBody scaleFactor) b bs s) as [ _ -> ].
  destruct (IH (exec (bubbleBody scaleFactor b) s)) as [ -> -> ].
  destruct (bubbleBody_oxygen scaleFactor b s) as [ -> -> ].
  split; reflexivity.
Qed.

(** A bubble that misses the player leaves the oxygen as it is. *)
Lemma collect_missed (scaleFactor : Q) (d : Diver.t) (bs : list OxygenBubble.t) (o : Q) :
  bubblesMissed scaleFactor d bs -> fold_left (collect scaleFactor d) bs o = o.
Proof.
  intros Hm. induction Hm as [ | b bs Hb Hbs IH ]; [ reflexivity | ].
  cbn [fold_left]. unfold collect at 2. rewrite Hb. exact IH.
Qed.

(** The oxygen after depletion, warnings, the bubble loop and the
    spawning of new bubbles. *)
Lemma oxygenAndBubbles_oxygen (deltaTime : Q) (s : Sys) :
  oxygen (game (exec (oxygenAndBubbles deltaTime) s)) =
    fold_left (collect (scaleOf deltaTime) (diver (game s))) (oxygenBubbles (game s))
      (Qmax 0 (oxygen (game s) -
               (Diver.oxygenDepletionRate (diver (game s)) *
                (1.0 + Diver.y (diver (game s)) / canvas_height)) * scaleOf deltaTime)).
Proof.
  unfold oxygenAndBubbles. cbv zeta.
  mstep. mstep. rewrite exec_modG.
  set (s1 := mkSys _ (host s)).
  mstep. mstep.
  match goal with |- context [ exec (when ?b ?m) s1 ] =>
    assert (H2 : sameGame s1 (exec (when b m) s1))
      by (assert (Ht : tracks sameGame (when b m)) by host_only; apply Ht);
    set (s2 := exec (when b m) s1) in *
  end.
  mstep.
  match goal with |- context [ exec (if ?b then ?m1 else ?m2) s2 ] =>
    assert (H3 : sameGame s2 (exec (if b then m1 else m2) s2))
      by (assert (Ht : tracks sameGame (if b then m1 else m2)) by host_only; apply Ht);
    set (s3 := exec (if b then m1 else m2) s2) in *
  end.
  assert (E3 : game s3 = game s1) by (unfold sameGame in *; congruence).
  mstep. mstep.
  destruct (forKeep_bubbles_oxygen (scaleOf deltaTime) (oxygenBubbles (game s3)) s3)
    as [ Ho _ ].
  set (s4 := exec (forKeep (bubbleBody (scaleOf deltaTime)) (oxygenBubbles (game s3))) s3) in *.
  mstep. rewrite exec_modG.
  match goal with |- context [ exec ?m (mkSys ?g ?h) ] =>
    assert (Ht : tracks spawned m) by spawning;
    destruct (Ht (mkSys g h))
  end.
  rewrite sp_oxygen0. cbn [game oxygen set_oxygenBubbles]. rewrite Ho, E3. reflexivity.
Qed.

(** C4 (amended).  The oxygen subsystem first lowers the oxygen level by
    oxygenDepletionRate * (1.0 + y / canvas.height) * scaleFactor,
    floored at 0, where scaleFactor = deltaTime / (1000 / 60) and y is
    the player's vertical position when the subsystem runs; it then
    adds, one bubble after the other, the amount of each oxygen bubble
    that touches the player, capping the sum at MAX_OXYGEN each time.
    That is the oxygen level before the subsystem's test for
    exhaustion, and at its end if it is positive.  So in a tick in which
    no bubble touches the player and the oxygen stays positive, the
    subsystem lowers the oxygen by exactly the depletion; with oxygen
    300, rate 0.05, y = 0 and deltaTime = 16.7 the oxygen left is
    299.9499. *)
Theorem depth_scaled_depletion (deltaTime : Q) (s : Sys) :
  let scaleFactor := scaleOf deltaTime in
  let depthFactor := Diver.y (diver (game s)) / canvas_height in
  let depleted := oxygen (game s) -
                  (Diver.oxygenDepletionRate (diver (game s)) * (1.0 + depthFactor))
                  * scaleFactor in
  let missed := bubblesMissed scaleFactor (diver (game s)) (oxygenBubbles (game s)) in
  let s1 := exec (oxygenAndBubbles deltaTime) s in
  let s' := exec (updateOxygenBubbles deltaTime) s in
  oxygen (game s1) =
    fold_left (collect scaleFactor (diver (game s))) (oxygenBubbles (game s))
              (Qmax 0 depleted) /\
  (0 < oxygen (game s1) -> oxygen (game s') = oxygen (game s1)) /\
  (missed -> oxygen (game s1) = Qmax 0 depleted) /\
  (missed -> 0 < depleted -> oxygen (game s') == depleted) /\
  (missed ->
   oxygen (game s) = 300 -> Diver.oxygenDepletionRate (diver (game s)) = 0.05 ->
   Diver.y (diver (game s)) = 0 -> deltaTime = 16.7 ->
     oxygen (game s') == 299.9499).
Proof.
  intros scaleFactor depthFactor depleted missed s1 s'.
  pose proof (oxygenAndBubbles_oxygen deltaTime s) as Ho.
  fold depthFactor scaleFactor depleted s1 in Ho.
  assert (Hend : 0 < oxygen (game s1) -> oxygen (game s') = oxygen (game s1)).
  { intros Hpos. unfold s', updateOxygenBubbles. rewrite exec_bind. fold s1.
    unfold oxygenExhausted. mstep.
    assert (Hq : Qleb (oxygen (game s1)) 0 = false) by (apply Qleb_gt; exact Hpos).
    rewrite Hq. cbn [andb]. rewrite exec_when_false. reflexivity. }
  assert (Hmiss : missed -> oxygen (game s1) = Qmax 0 depleted).
  { intros Hm. rewrite Ho. apply collect_missed. exact Hm. }
  assert (Hpos : missed -> 0 < depleted -> oxygen (game s') == depleted).
  { intros Hm Hd. rewrite Hend.
    - rewrite (Hmiss Hm). apply Q.max_r. apply Qlt_le_weak, Hd.
    - rewrite (Hmiss Hm). apply Q.max_lt_iff. right. exact Hd. }
  split; [ exact Ho | ]. split; [ exact Hend | ]. split; [ exact Hmiss | ].
  split; [ exact Hpos | ].
  intros Hm H1 H2 H3 H4. rewrite (Hpos Hm).
  - subst depleted depthFactor scaleFactor. rewrite H1, H2, H3, H4. reflexivity.
  - subst depleted depthFactor scaleFactor. rewrite H1, H2, H3, H4. reflexivity.
Qed.

(** ** The outcomes of an oxygen bonus (C6) *)

(** The hostile scan of the [filter] callback. *)
Definition hitByEnemy (bonus : OxygenBonus.t) (g : Game) : bool :=
  existsb (fun enemy => isColliding false (Enemy.box enemy) (OxygenBonus.box bonus) false)
          (enemies g).

Lemma bonusBody_surface (scaleFactor : Q) (o : OxygenBonus.t) (s : Sys) :
  let bonus := bonusMotion scaleFactor o in
  Qleb (OxygenBonus.y bonus) 30 = true ->
  eval (bonusBody scaleFactor o) s = None /\
  exists s1,
    spawned (mkSys (upd_diver updateCombo
               (set_score (score (game s) + 250 * (Diver.comboCounter (diver (game s)) + 1))%Z
                  (set_oxygen (Qmin MAX_OXYGEN (oxygen (game s) + OxygenBonus.value bonus * 1.5))
                     (game s)))) (host s1))
            (exec (bonusBody scaleFactor o) s).
Proof.
  intros bonus Hy. subst bonus. unfold bonusBody. cbv zeta. rewrite Hy. split.
  - reflexivity.
  - mstep. mstep. mstep. mstep. rewrite !exec_modG, exec_modD.
    exists (exec (stopSound "hello") s).
    match goal with |- spawned _ (exec ?m _) => assert (Ht : tracks spawned m) by spawning end.
    apply Ht.
Qed.

Lemma bonusBody_destroyed (scaleFactor : Q) (o : OxygenBonus.t) (s : Sys) :
  let bonus := bonusMotion scaleFactor o in
  Qleb (OxygenBonus.y bonus) 30 = false ->
  hitByEnemy bonus (game s) = true ->
  eval (bonusBody scaleFactor o) s = None /\
  spawned s (exec (bonusBody scaleFactor o) s).
Proof.
  intros bonus Hy Hh. subst bonus. unfold bonusBody. cbv zeta. rewrite Hy.
  unfold hitByEnemy in Hh. split.
  - rewrite eval_bind. cbv beta. change (eval getG s) with (game s). rewrite Hh. reflexivity.
  - mstep. rewrite Hh.
    match goal with |- spawned _ (exec ?m _) => assert (Ht : tracks spawned m) by spawning end.
    apply Ht.
Qed.

Lemma bonusBody_collected (scaleFactor : Q) (o : OxygenBonus.t) (s : Sys) :
  let bonus := bonusMotion scaleFactor o in
  Qleb (OxygenBonus.y bonus) 30 = false ->
  hitByEnemy bonus (game s) = false ->
  isColliding true (Diver.box (diver (game s))) (OxygenBonus.box bonus) false = true ->
  eval (bonusBody scaleFactor o) s = None /\
  exists s1,
    spawned (mkSys (upd_diver updateCombo
               (set_score (score (game s) + 150 * (Diver.comboCounter (diver (game s)) + 1))%Z
                  (set_oxygen (Qmin MAX_OXYGEN (oxygen (game s) + OxygenBonus.value bonus))
                     (game s)))) (host s1))
            (exec (bonusBody scaleFactor o) s).
Proof.
  intros bonus Hy Hh Hc. subst bonus. unfold bonusBody. cbv zeta. rewrite Hy.
  unfold hitByEnemy in Hh. split.
  - rewrite eval_bind. cbv beta. change (eval getG s) with (game s). rewrite Hh, Hc. reflexivity.
  - mstep. rewrite Hh, Hc. mstep. mstep. mstep. mstep. rewrite !exec_modG, exec_modD.
    exists (exec (stopSound "hello") s).
    match goal with |- spawned _ (exec ?m _) => assert (Ht : tracks spawned m) by spawning end.
    apply Ht.
Qed.

Lemma bonusBody_untouched (scaleFactor : Q) (o : OxygenBonus.t) (s : Sys) :
  let bonus := bonusMotion scaleFactor o in
  Qleb (OxygenBonus.y bonus) 30 = false ->
  hitByEnemy bonus (game s) = false ->
  isColliding true (Diver.box (diver (game s))) (OxygenBonus.box bonus) false = false ->
  exec (bonusBody scaleFactor o) s = s /\
  eval (bonusBody scaleFactor o) s =
    if Qltb 0 (OxygenBonus.lifespan bonus) && Qltb 0 (OxygenBonus.alpha bonus)
    then Some bonus else None.
Proof.
  intros bonus Hy Hh Hc. subst bonus. unfold bonusBody. cbv zeta. rewrite Hy.
  unfold hitByEnemy in Hh. split.
  - mstep. rewrite Hh, Hc. reflexivity.
  - rewrite eval_bind. cbv beta. change (eval getG s) with (game s). rewrite Hh, Hc. reflexivity.
Qed.

(** C6 (amended).  On each tick a bonus is moved and then meets the
    first of these that applies: it has reached the surface (y <= 30):
    removed, the player gains 1.5 times its value of oxygen capped at
    MAX_OXYGEN and 250 * (combo + 1) score, and the combo counter
    rises; a hostile overlaps it: removed, with no oxygen, no score and
    no change of the combo; the player touches it: removed, with its
    value of oxygen (capped), 150 * (combo + 1) score and a combo
    increment; otherwise nothing else changes, and the bonus stays as
    long as its lifespan and its alpha are positive and is removed
    without any reward when one of them is not. *)
Theorem bonus_outcomes (scaleFactor : Q) (o : OxygenBonus.t) (s : Sys) :
  let bonus := bonusMotion scaleFactor o in
  let s' := exec (bonusBody scaleFactor o) s in
  let r := eval (bonusBody scaleFactor o) s in
  let combo := Diver.comboCounter (diver (game s)) in
  OxygenBonus.value bonus = OxygenBonus.value o /\
  (OxygenBonus.y bonus <= 30 ->
     r = None /\
     oxygen (game s') = Qmin MAX_OXYGEN (oxygen (game s) + OxygenBonus.value bonus * 1.5) /\
     score (game s') = (score (game s) + 250 * (combo + 1))%Z /\
     Diver.comboCounter (diver (game s')) = (combo + 1)%Z /\
     Diver.comboTimer (diver (game s')) = COMBO_TIMEOUT_FRAMES) /\
  (30 < OxygenBonus.y bonus -> hitByEnemy bonus (game s) = true ->
     r = None /\
     oxygen (game s') = oxygen (game s) /\
     score (game s') = score (game s) /\
     diver (game s') = diver (game s)) /\
  (30 < OxygenBonus.y bonus -> hitByEnemy bonus (game s) = false ->
   isColliding true (Diver.box (diver (game s))) (OxygenBonus.box bonus) false = true ->
     r = None /\
     oxygen (game s') = Qmin MAX_OXYGEN (oxygen (game s) + OxygenBonus.value bonus) /\
     score (game s') = (score (game s) + 150 * (combo + 1))%Z /\
     Diver.comboCounter (diver (game s')) = (combo + 1)%Z /\
     Diver.comboTimer (diver (game s')) = COMBO_TIMEOUT_FRAMES) /\
  (30 < OxygenBonus.y bonus -> hitByEnemy bonus (game s) = false ->
   isColliding true (Diver.box (diver (game s))) (OxygenBonus.box bonus) false = false ->
     s' = s /\
     (0 < OxygenBonus.lifespan bonus -> 0 < OxygenBonus.alpha bonus -> r = Some bonus) /\
     (OxygenBonus.lifespan bonus <= 0 \/ OxygenBonus.alpha bonus <= 0 -> r = None)).
Proof.
  intros bonus s' r combo.
  split; [ apply bonusMotion_value | ]. split; [ | split; [ | split ] ].
  - intros Hy. apply Qleb_le in Hy.
    destruct (bonusBody_surface scaleFactor o s Hy) as (Hr & s1 & []).
    fold s' in sp_score0, sp_oxygen0, sp_diver0. cbn in *.
    split; [ exact Hr | ]. rewrite sp_oxygen0, sp_score0, sp_diver0. repeat split.
  - intros Hy Hh. apply Qleb_gt in Hy.
    destruct (bonusBody_destroyed scaleFactor o s Hy Hh) as (Hr & []).
    repeat split; assumption.
  - intros Hy Hh Hc. apply Qleb_gt in Hy.
    destruct (bonusBody_collected scaleFactor o s Hy Hh Hc) as (Hr & s1 & []).
    fold s' in sp_score0, sp_oxygen0, sp_diver0. cbn in *.
    split; [ exact Hr | ]. rewrite sp_oxygen0, sp_score0, sp_diver0. repeat split.
  - intros Hy Hh Hc. apply Qleb_gt in Hy.
    destruct (bonusBody_untouched scaleFactor o s Hy Hh Hc) as (Hs & Hr).
    split; [ exact Hs | ]. fold bonus in Hr. fold r in Hr. split.
    + intros Hl Ha. apply Qltb_lt in Hl, Ha. rewrite Hr, Hl, Ha. reflexivity.
    + intros [ Hl | Ha ]; [ apply Qltb_ge in Hl | apply Qltb_ge in Ha ]; rewrite Hr.
      * rewrite Hl. reflexivity.
      * rewrite Ha, andb_false_r. reflexivity.
Qed.

(** *** A bonus of the factory does not reach the surface

    The factory releases a bonus at y = canvas.height - 50 = 718 with
    800 frame units to live, and a bonus rises by 0.8 per frame unit:
    it is still at y = 78 when its life runs out.  The surface test
    (y <= 30) comes before the lifespan test, but a tick is at most
    100 ms long (a scale factor of 6), so the test fails for such a
    bonus in every tick it lives to see. *)

Definition onCourse (o : OxygenBonus.t) : Prop :=
  OxygenBonus.dy o = -0.8 /\ OxygenBonus.y o == 78 + 0.8 * OxygenBonus.lifespan o.

Lemma generateOxygenBonus_onCourse (s : Sys) :
  exists bonus,
    oxygenBonus (game (exec generateOxygenBonus s)) = oxygenBonus (game s) ++ [bonus] /\
    onCourse bonus.
Proof.
  unfold generateOxygenBonus, mathRandom, playSound.
  eexists. split; [ reflexivity | ]. split; reflexivity.
Qed.

Lemma bonusMotion_course (scaleFactor : Q) (o : OxygenBonus.t) :
  OxygenBonus.dy (bonusMotion scaleFactor o) = OxygenBonus.dy o /\
  OxygenBonus.y (bonusMotion scaleFactor o) =
    OxygenBonus.y o + OxygenBonus.dy o * scaleFactor /\
  OxygenBonus.lifespan (bonusMotion scaleFactor o) = OxygenBonus.lifespan o - scaleFactor.
Proof. unfold bonusMotion. cbn. split_ifs; repeat split. Qed.

Lemma bonusMotion_onCourse (scaleFactor : Q) (o : OxygenBonus.t) :
  onCourse o -> onCourse (bonusMotion scaleFactor o).
Proof.
  intros [ Hd Hy ]. destruct (bonusMotion_course scaleFactor o) as (E1 & E2 & E3).
  split; [ congruence | ]. rewrite E2, E3, Hd, Hy. field.
Qed.

Lemma onCourse_below_surface (scaleFactor : Q) (o : OxygenBonus.t) :
  scaleFactor <= scaleOf 100 -> onCourse o -> 0 < OxygenBonus.lifespan o ->
  30 < OxygenBonus.y (bonusMotion scaleFactor o).
Proof.
  intros Hs [ Hd Hy ] Hl. destruct (bonusMotion_course scaleFactor o) as (_ & E2 & _).
  rewrite E2, Hd, Hy.
  assert (H6 : scaleOf 100 == 6) by reflexivity. rewrite H6 in Hs. lra.
Qed.

(** ** Falling pickups (C8) *)











(** ** The combo counter (C9) *)

Definition combo (s : Sys) : Z := Diver.comboCounter (diver (game s)).

(** The combo timer runs out in this tick. *)
Definition timerExpires (scaleFactor : Q) (s : Sys) : Prop :=
  0 < Diver.comboTimer (diver (game s)) /\
  Diver.comboTimer (diver (game s)) - scaleFactor <= 0.

(** A hostile, after its motion of this tick, overlaps the unshielded
    player. *)
Definition hostileContact (scaleFactor : Q) (s : Sys) : Prop :=
  Diver.isShieldActive (diver (game s)) = false /\
  Exists (fun enemy =>
            isColliding true (Diver.box (diver (game s)))
              (Enemy.box (enemyMotion scaleFactor enemy))
              (Enemy.isShark (enemyMotion scaleFactor enemy)) = true)
         (enemies (game s)).

(** One step of a program for an invariant [I] that spawning keeps
    ([stab]). *)
Ltac istep Inv stab :=
  match goal with
  | |- hoare _ (ret _) _ => apply hoare_ret; intros ? ?
  | |- hoare _ (bind getG _) _ => apply hoare_getG_bind; intros ?
  | |- hoare _ (bind (forKeep _ _) _) _ =>
      eapply hoare_bind;
      [ apply hoare_loop with (I := Inv) (E := fun _ => True);
        [ intros ? ?; pre_split; split; [ assumption | apply Forall_trivial ]
        | intros ? _ ]
      | intros ? ]
  | |- hoare _ (bind _ _) _ => apply hoare_bind with (Pmid := fun _ => Inv); [ | intros ? ]
  | |- hoare _ (when _ _) _ => apply hoare_when; [ intros ? | intros ? ? ? ]
  | |- hoare _ (if ?b then _ else _) _ => destruct b eqn:?
  | |- hoare _ (match ?x with _ => _ end) _ => destruct x eqn:?
  | |- hoare _ (modG _) _ => apply hoare_modG; intros ? ?
  | |- hoare _ (modD _) _ => apply hoare_modG; intros ? ?
  | |- hoare _ (modH _) _ => apply hoare_modH; intros ? ?
  | |- hoare _ _ _ =>
      apply hoare_conseq with (P' := Inv) (Post' := fun _ => Inv);
      [ apply hoare_spawned; [ exact stab | spawn_call ]
      | intros ? ?; pre_split; assumption
      | intros ? ? ?; assumption ]
  end.

(** *** Subsystems that leave the combo counter alone *)

Definition comboIs (c : Z) (s : Sys) : Prop := combo s = c.

Lemma comboIs_spawned (c : Z) (s s' : Sys) : spawned s s' -> comboIs c s -> comboIs c s'.
Proof. intros [] H. unfold comboIs, combo in *. congruence. Qed.

Ltac combo_same c :=
  repeat istep (comboIs c) (comboIs_spawned c);
  pre_split; subst; unfold comboIs, combo in *; cbn;
  try first [ assumption | split; [ assumption | trivial ] ].

Lemma comboIs_updateWeaponSystem (c : Z) (deltaTime : Q) :
  hoare (comboIs c) (updateWeaponSystem deltaTime) (fun _ => comboIs c).
Proof. unfold updateWeaponSystem, fireHarpoon. combo_same c. Qed.

Lemma comboIs_updateCrabs (c : Z) (deltaTime : Q) :
  hoare (comboIs c) (updateCrabs deltaTime) (fun _ => comboIs c).
Proof. unfold updateCrabs, crabBody. combo_same c. Qed.

Lemma comboIs_updateParticles (c : Z) (deltaTime : Q) :
  hoare (comboIs c) (updateParticles deltaTime) (fun _ => comboIs c).
Proof. unfold updateParticles. combo_same c. Qed.

Lemma comboIs_updateLevel (c : Z) :
  hoare (comboIs c) updateLevel (fun _ => comboIs c).
Proof. unfold updateLevel. combo_same c. Qed.

(** *** Subsystems that raise the combo counter, with the score *)

(** Since the state with counter [c] and score [sc]: the counter has not
    dropped, and has risen only along with the score. *)
Definition comboRises (c sc : Z) (s : Sys) : Prop :=
  (0 <= combo s)%Z /\ (c <= combo s)%Z /\ (sc <= score (game s))%Z /\
  ((c < combo s)%Z -> (sc < score (game s))%Z).

(** Between the credit of the score and the increment of the counter. *)
Definition comboScored (c sc : Z) (s : Sys) : Prop :=
  (0 <= combo s)%Z /\ (c <= combo s)%Z /\ (sc < score (game s))%Z.

Lemma comboRises_spawned (c sc : Z) (s s' : Sys) :
  spawned s s' -> comboRises c sc s -> comboRises c sc s'.
Proof. intros [] H. unfold comboRises, combo in *. rewrite sp_diver0, sp_score0. exact H. Qed.

Ltac rises_step c sc :=
  match goal with
  | |- hoare _ (bind (modG (fun g => set_score _ g)) _) _ =>
      apply hoare_bind with (Pmid := fun _ => comboScored c sc);
      [ apply hoare_modG; intros ? ? | intros ? ]
  | |- hoare _ (bind (if _ then modG _ else modG _) _) _ =>
      apply hoare_bind with (Pmid := fun _ => comboScored c sc);
      [ match goal with |- hoare _ (if ?b then _ else _) _ => destruct b end;
        apply hoare_modG; intros ? ?
      | intros ? ]
  | _ => istep (comboRises c sc) (comboRises_spawned c sc)
  end.

Ltac rises_leaf :=
  pre_split; subst;
  unfold comboRises, comboScored, combo, treasureOk in *;
  cbn -[Z.mul Z.add Z.sub Z.min] in *;
  rewrite ?fall_value;
  repeat match goal with
  | |- _ /\ _ => split
  | |- forall _, _ = Some _ -> _ => first [ discriminate | intros ? [= <-] | intros ? _ ]
  | |- True => exact I
  end;
  rewrite ?fall_value;
  try nia.

Lemma comboRises_treasureBody (c sc : Z) (scaleFactor : Q) (t : Treasure.t) :
  treasureOk t ->
  hoare (comboRises c sc) (treasureBody scaleFactor t)
        (fun r s => comboRises c sc s /\ forall t', r = Some t' -> treasureOk t').
Proof.
  intros Ht. unfold treasureBody. repeat rises_step c sc; rises_leaf.
Qed.

Lemma comboRises_updateTreasures (c sc : Z) (deltaTime : Q) :
  hoare (fun s => comboRises c sc s /\ Forall treasureOk (treasures (game s)))
        (updateTreasures deltaTime) (fun _ => comboRises c sc).
Proof.
  unfold updateTreasures. apply hoare_getG_bind. intros g.
  eapply hoare_bind.
  - apply hoare_loop with (I := comboRises c sc) (E := treasureOk).
    + intros s [ [ H HF ] <- ]. split; assumption.
    + intros t Ht. apply comboRises_treasureBody, Ht.
  - intros kept. apply hoare_modG. intros s [ H _ ]. exact H.
Qed.

Lemma comboRises_updateHearts (c sc : Z) (deltaTime : Q) :
  hoare (comboRises c sc) (updateHearts deltaTime) (fun _ => comboRises c sc).
Proof.
  unfold updateHearts, heartBody. repeat rises_step c sc; rises_leaf.
Qed.

Lemma comboRises_updateOxygenBonus (c sc : Z) (deltaTime : Q) :
  hoare (comboRises c sc) (updateOxygenBonus deltaTime) (fun _ => comboRises c sc).
Proof.
  unfold updateOxygenBonus, bonusBody. repeat rises_step c sc; rises_leaf.
Qed.

(** *** The hostile subsystem: hits raise the counter, contact resets it *)

Definition enemyInv (c sc : Z) (C : Prop) (d0 : Diver.t) (s : Sys) : Prop :=
  Diver.box (diver (game s)) = Diver.box d0 /\
  Diver.isShieldActive (diver (game s)) = Diver.isShieldActive d0 /\
  (0 <= combo s)%Z /\ (sc <= score (game s))%Z /\
  ((c < combo s)%Z -> (sc < score (game s))%Z) /\
  ((combo s < c)%Z -> C).

Definition enemyScored (c sc : Z) (C : Prop) (d0 : Diver.t) (s : Sys) : Prop :=
  Diver.box (diver (game s)) = Diver.box d0 /\
  Diver.isShieldActive (diver (game s)) = Diver.isShieldActive d0 /\
  (0 <= combo s)%Z /\ (sc < score (game s))%Z /\
  ((combo s < c)%Z -> C).

Lemma enemyInv_spawned (c sc : Z) (C : Prop) (d0 : Diver.t) (s s' : Sys) :
  spawned s s' -> enemyInv c sc C d0 s -> enemyInv c sc C d0 s'.
Proof. intros [] H. unfold enemyInv, combo in *. rewrite sp_diver0, sp_score0. exact H. Qed.

Ltac enemy_step c sc C d0 :=
  match goal with
  | |- hoare _ (bind (if _ then modG _ else modG _) _) _ =>
      apply hoare_bind with (Pmid := fun _ => enemyScored c sc C d0);
      [ match goal with |- hoare _ (if ?b then _ else _) _ => destruct b end;
        apply hoare_modG; intros ? ?
      | intros ? ]
  | _ => istep (enemyInv c sc C d0) (enemyInv_spawned c sc C d0)
  end.

Ltac enemy_leaf :=
  pre_split; subst;
  unfold enemyInv, enemyScored, combo in *;
  cbn -[Z.mul Z.add Z.sub Z.min] in *; pre_split;
  repeat match goal with
  | |- _ /\ _ => split
  end;
  try first [ assumption | nia | tauto
            | intros; match goal with H : _ -> ?G |- ?G => apply H; lia end ].

Lemma hoare_forKeep_in {X : Type} (I : Sys -> Prop) (body : X -> M (option X)) (xs : list X) :
  (forall x, In x xs -> hoare I (body x) (fun _ => I)) ->
  hoare I (forKeep body xs) (fun _ => I).
Proof.
  intros Hb s Hs.
  apply (tracks_forKeep (fun s s' => I s -> I s')) with (body := body) (xs := xs) (s := s).
  - auto.
  - auto.
  - intros x Hx s0 H0. apply (Hb x Hx s0 H0).
  - exact Hs.
Qed.

Lemma enemyInv_enemyBody (c sc : Z) (C : Prop) (d0 : Diver.t) (scaleFactor : Q) (e : Enemy.t) :
  (0 <= c)%Z ->
  (isColliding true (Diver.box d0) (Enemy.box (enemyMotion scaleFactor e))
     (Enemy.isShark (enemyMotion scaleFactor e)) = true ->
   Diver.isShieldActive d0 = false -> C) ->
  hoare (enemyInv c sc C d0) (enemyBody scaleFactor e) (fun _ => enemyInv c sc C d0).
Proof.
  intros Hc HC. unfold enemyBody. cbv zeta.
  apply hoare_bind with (Pmid := fun _ => enemyInv c sc C d0).
  - unfold enemyContact. apply hoare_getG_bind. intros g.
    match goal with |- hoare _ (if ?b then _ else _) _ => destruct b eqn:Hcontact end.
    + apply hoare_assert with (F := C).
      { intros s [ (Hbox & Hsh & _) <- ]. apply andb_prop in Hcontact.
        destruct Hcontact as [ H1 H2 ]. apply negb_true_iff in H2.
        rewrite Hbox in H1. rewrite Hsh in H2. exact (HC H1 H2). }
      intros HCnow. repeat enemy_step c sc C d0; enemy_leaf.
    + repeat enemy_step c sc C d0; enemy_leaf.
  - intros e'. unfold enemyHarpoons, harpoonHit.
    repeat enemy_step c sc C d0; enemy_leaf.
Qed.

Lemma enemyInv_updateEnemies (deltaTime : Q) (s0 : Sys) :
  (0 <= combo s0)%Z ->
  enemyInv (combo s0) (score (game s0)) (hostileContact (scaleOf deltaTime) s0)
           (diver (game s0)) (exec (updateEnemies deltaTime) s0).
Proof.
  intros Hc.
  set (c := combo s0). set (sc := score (game s0)).
  set (C := hostileContact (scaleOf deltaTime) s0). set (d0 := diver (game s0)).
  assert (H0 : enemyInv c sc C d0 s0).
  { unfold enemyInv. subst c sc d0. repeat split; try lia; try reflexivity. }
  assert (Hh : hoare (fun s => enemyInv c sc C d0 s /\ enemies (game s) = enemies (game s0))
                 (updateEnemies deltaTime) (fun _ => enemyInv c sc C d0)).
  { unfold updateEnemies. cbv zeta. apply hoare_getG_bind. intros g.
    apply hoare_bind with (Pmid := fun _ => enemyInv c sc C d0).
    - apply hoare_assert with (F := enemies g = enemies (game s0)).
      { intros s [ [ _ He ] <- ]. exact He. }
      intros He. rewrite He.
      eapply hoare_conseq; [ apply hoare_forKeep_in with (I := enemyInv c sc C d0) | | ].
      + intros e Hin. apply enemyInv_enemyBody; [ exact Hc | ].
        intros H1 H2. split; [ exact H2 | ]. apply Exists_exists. exists e. split; assumption.
      + intros s [ [ H _ ] _ ]. exact H.
      + intros a s H. exact H.
    - intros kept. repeat enemy_step c sc C d0; enemy_leaf. }
  apply (Hh s0). split; [ exact H0 | reflexivity ].
Qed.

(** *** The player subsystem: the timer runs out *)

Definition comboTimerIs (c : Z) (t : Q) (s : Sys) : Prop :=
  combo s = c /\ Diver.comboTimer (diver (game s)) = t.

Definition comboKeptOrExpired (c : Z) (t scaleFactor : Q) (s : Sys) : Prop :=
  combo s = c \/ (combo s = 0%Z /\ 0 < t /\ t - scaleFactor <= 0).

Lemma updateDiver_combo (deltaTime : Q) (s0 : Sys) :
  comboKeptOrExpired (combo s0) (Diver.comboTimer (diver (game s0))) (scaleOf deltaTime)
                     (exec (updateDiver deltaTime) s0).
Proof.
  set (c := combo s0). set (t := Diver.comboTimer (diver (game s0))).
  set (sf := scaleOf deltaTime).
  assert (Hh : hoare (comboTimerIs c t) (updateDiver deltaTime)
                 (fun _ => comboKeptOrExpired c t sf)).
  { unfold updateDiver. cbv zeta. fold sf.
    apply hoare_bind with (Pmid := fun _ => comboTimerIs c t).
    { apply hoare_modG. intros s H. exact H. }
    intros ?. apply hoare_getG_bind. intros g.
    apply hoare_bind with (Pmid := fun _ => comboTimerIs c t).
    { destruct (Keys.ArrowRight (keys g)); [ | destruct (Keys.ArrowLeft (keys g)) ];
        apply hoare_modG; intros s [ H _ ]; exact H. }
    intros ?. apply hoare_bind with (Pmid := fun _ => comboTimerIs c t).
    { destruct (Keys.ArrowDown (keys g)); [ | destruct (Keys.ArrowUp (keys g)) ];
        apply hoare_modG; intros s H; exact H. }
    intros ?. apply hoare_bind with (Pmid := fun _ => comboTimerIs c t).
    { apply hoare_modG. intros s H. exact H. }
    intros ?. apply hoare_getG_bind. intros g1.
    apply hoare_bind with (Pmid := fun _ => comboKeptOrExpired c t sf).
    { apply hoare_when.
      - intros Hpos.
        apply hoare_bind with
          (Pmid := fun _ s => combo s = c /\ Diver.comboTimer (diver (game s)) = t - sf /\ 0 < t).
        + apply hoare_modG. intros s [ [ Hc Ht ] <- ]. apply Qltb_lt in Hpos.
          unfold combo in *. cbn. rewrite <- Ht. repeat split; assumption.
        + intros ?. apply hoare_getG_bind. intros g2. apply hoare_when.
          * intros Hexp. apply hoare_modG. intros s [ (Hc & Ht & Hp) <- ].
            apply Qleb_le in Hexp. rewrite Ht in Hexp.
            right. unfold combo. cbn. repeat split; assumption.
          * intros _ s [ (Hc & _) _ ]. left. exact Hc.
      - intros _ s [ [ Hc _ ] _ ]. left. exact Hc. }
    intros ?. apply hoare_getG_bind. intros g3.
    apply hoare_when; [ intros _ | intros _ s [ H _ ]; exact H ].
    apply hoare_bind with (Pmid := fun _ => comboKeptOrExpired c t sf).
    { apply hoare_modG. intros s [ H _ ]. exact H. }
    intros ?. apply hoare_getG_bind. intros g4.
    apply hoare_when; [ intros _ | intros _ s [ H _ ]; exact H ].
    apply hoare_modG. intros s [ H _ ]. exact H. }
  apply (Hh s0). split; reflexivity.
Qed.

(** *** The oxygen subsystem: a life is lost *)

Definition comboLivesAre (c l : Z) (s : Sys) : Prop :=
  combo s = c /\ playerLives (game s) = l.

Lemma comboLivesAre_spawned (c l : Z) (s s' : Sys) :
  spawned s s' -> comboLivesAre c l s -> comboLivesAre c l s'.
Proof. intros [] H. unfold comboLivesAre, combo in *. rewrite sp_diver0, sp_playerLives0. exact H. Qed.

Lemma comboLivesAre_oxygenAndBubbles (c l : Z) (deltaTime : Q) :
  hoare (comboLivesAre c l) (oxygenAndBubbles deltaTime) (fun _ => comboLivesAre c l).
Proof.
  unfold oxygenAndBubbles, bubbleBody.
  repeat istep (comboLivesAre c l) (comboLivesAre_spawned c l).
  all: pre_split; subst; unfold comboLivesAre, combo in *; cbn.
  all: try first [ assumption | split; [ assumption | trivial ] ].
Qed.

Lemma updateOxygenBubbles_combo (deltaTime : Q) (s : Sys) :
  let s' := exec (updateOxygenBubbles deltaTime) s in
  combo s' = combo s \/
  (combo s' = 0%Z /\ playerLives (game s') = (playerLives (game s) - 1)%Z /\
   (0 < playerLives (game s'))%Z).
Proof.
  intros s'. subst s'. unfold updateOxygenBubbles. rewrite exec_bind.
  destruct (comboLivesAre_oxygenAndBubbles (combo s) (playerLives (game s)) deltaTime s)
    as [ Hc Hl ]; [ split; reflexivity | ].
  set (s1 := exec (oxygenAndBubbles deltaTime) s) in *.
  destruct (Qleb (oxygen (game s1)) 0 && gameStarted (game s1) && negb (gameOver (game s1)))
    eqn:Hcond.
  - apply andb_prop in Hcond. destruct Hcond as [ Hcond Hover ].
    apply andb_prop in Hcond. destruct Hcond as [ Ho Hstarted ].
    apply negb_true_iff in Hover. apply Qleb_le in Ho.
    destruct (oxygenExhausted_spec s1 Ho Hstarted Hover) as (Hlives & Hre & Hend).
    destruct (Z.lt_ge_cases 0 (playerLives (game (exec oxygenExhausted s1)))) as [ Hpos | Hle ].
    + right. destruct (Hre Hpos) as (_ & _ & _ & Hcombo & _).
      repeat split; [ exact Hcombo | congruence | exact Hpos ].
    + left. destruct (Hend Hle) as (_ & _ & _ & _ & Hd). unfold combo in *. congruence.
  - left. unfold oxygenExhausted. mstep. rewrite Hcond. rewrite exec_when_false. exact Hc.
Qed.

(** C9 (amended).  From a state with a non-negative combo counter, each
    subsystem of the tick treats the counter as follows.  The player
    subsystem keeps it, or resets it to 0 when the combo timer runs out.
    The weapon, crab, particle and level subsystems keep it.  The
    treasure, heart and oxygen-bonus subsystems never lower it and raise
    it only together with the score.  The hostile subsystem raises it
    only together with the score (harpoon hits) and lowers it only when
    a hostile touches the unshielded player.  The oxygen subsystem keeps
    it, or resets it to 0 when a life is lost to oxygen exhaustion and
    the player respawns. *)
Theorem combo_transitions (deltaTime : Q) (s : Sys) :
  (0 <= combo s)%Z -> Forall treasureOk (treasures (game s)) ->
  let scaleFactor := scaleOf deltaTime in
  (let s' := exec (updateDiver deltaTime) s in
   combo s' = combo s \/ (combo s' = 0%Z /\ timerExpires scaleFactor s)) /\
  combo (exec (updateWeaponSystem deltaTime) s) = combo s /\
  combo (exec (updateCrabs deltaTime) s) = combo s /\
  combo (exec (updateParticles deltaTime) s) = combo s /\
  combo (exec updateLevel s) = combo s /\
  (forall s', s' = exec (updateTreasures deltaTime) s \/
              s' = exec (updateHearts deltaTime) s \/
              s' = exec (updateOxygenBonus deltaTime) s ->
     (combo s <= combo s')%Z /\ (score (game s) <= score (game s'))%Z /\
     ((combo s < combo s')%Z -> (score (game s) < score (game s'))%Z)) /\
  (let s' := exec (updateEnemies deltaTime) s in
   (score (game s) <= score (game s'))%Z /\
   ((combo s < combo s')%Z -> (score (game s) < score (game s'))%Z) /\
   ((combo s' < combo s)%Z -> hostileContact scaleFactor s)) /\
  (let s' := exec (updateOxygenBubbles deltaTime) s in
   combo s' = combo s \/
   (combo s' = 0%Z /\ playerLives (game s') = (playerLives (game s) - 1)%Z /\
    (0 < playerLives (game s'))%Z)).
Proof.
  intros Hc Ht scaleFactor.
  assert (Hrise : comboRises (combo s) (score (game s)) s).
  { unfold comboRises. repeat split; lia. }
  split; [ | split; [ | split; [ | split; [ | split; [ | split; [ | split ] ] ] ] ] ].
  - destruct (updateDiver_combo deltaTime s) as [ H | (H0 & Hp & He) ].
    + left. exact H.
    + right. split; [ exact H0 | split; assumption ].
  - apply (comboIs_updateWeaponSystem (combo s) deltaTime s). reflexivity.
  - apply (comboIs_updateCrabs (combo s) deltaTime s). reflexivity.
  - apply (comboIs_updateParticles (combo s) deltaTime s). reflexivity.
  - apply (comboIs_updateLevel (combo s) s). reflexivity.
  - intros s' [ -> | [ -> | -> ] ].
    + destruct (comboRises_updateTreasures (combo s) (score (game s)) deltaTime s)
        as (_ & H1 & H2 & H3); [ split; assumption | ]. repeat split; assumption.
    + destruct (comboRises_updateHearts (combo s) (score (game s)) deltaTime s Hrise)
        as (_ & H1 & H2 & H3). repeat split; assumption.
    + destruct (comboRises_updateOxygenBonus (combo s) (score (game s)) deltaTime s Hrise)
        as (_ & H1 & H2 & H3). repeat split; assumption.
  - destruct (enemyInv_updateEnemies deltaTime s Hc) as (_ & _ & _ & H1 & H2 & H3).
    cbv zeta. split; [ exact H1 | split; [ exact H2 | exact H3 ] ].
  - apply updateOxygenBubbles_combo.
Qed.

End Engine.

(** * Concrete sessions

    The theorems above hold for every behaviour of [Math.random] (within
    the unit interval), [Math.sin], [Math.cos] and [Math.pow].  The
    sessions below fix one: a generator that always returns 0.5 and
    polynomial stand-ins for the other functions. *)

Definition randomHalf : nat -> Q := fun _ => 0.5.
Definition sinPoly (x : Q) : Q := x - x * x * x / 6.
Definition cosPoly (x : Q) : Q := 1 - x * x / 2.
Definition powLinear (b e : Q) : Q := 1 + e * (b - 1).
Definition piApprox : Q := 3.14159.

Lemma randomHalf_unit : forall n, 0 <= randomHalf n < 1.
Proof. intros n. split; [ apply Qle_bool_imp_le | ]; reflexivity. Defined.

(** A session just started: the first key press ran [init] at time 0. *)
Definition started : Sys :=
  exec (handleKeyDown randomHalf piApprox "Enter" 0) (initialSys 0).

Definition withGame (f : Game -> Game) (s : Sys) : Sys := mkSys (f (game s)) (host s).

(** The last life, no oxygen bubble around, and the oxygen almost gone. *)
Definition lastBreath : Sys :=
  withGame (fun g => set_oxygenBubbles [] (set_oxygen 0.01 (set_playerLives 1 g))) started.

(** A combo of 3 running, no hostile and no bubble around, two lives
    left, and the oxygen almost gone. *)
Definition comboAtRisk : Sys :=
  withGame (fun g =>
    set_enemies [] (set_oxygenBubbles [] (set_oxygen 0.01 (set_playerLives 2
      (upd_diver (fun d => Diver.set_comboTimer 100 (Diver.set_comboCounter 3 d)) g)))))
    started.

(** The same, with a treasure resting where the player is. *)
Definition restingTreasure : Treasure.t :=
  Treasure.mk 710 390 16 20 (Hex "#ffff00") 20 0 0.01 0 390 false.
Definition comboAndTreasure : Sys := withGame (set_treasures [restingTreasure]) comboAtRisk.

(** A small fish with one point of health and a harpoon inside it. *)
Definition smallFish : Enemy.t :=
  Enemy.mk 300 200 25 15 (Hsl 200 70 60) 1.5 10 0.002 0 200 1 1 false 1.
Definition harpoonInFish : Harpoon.t := Harpoon.mk 305 207 10 0 20 3 0 30.
Definition fishUnderFire : Sys :=
  withGame (fun g => set_harpoons [harpoonInFish] (set_enemies [smallFish]
    (upd_diver (Diver.set_comboCounter 2) g))) started.

(** The player at the surface in a fresh session. *)
Definition atSurface : Sys := withGame (upd_diver (Diver.set_y 0)) started.

(** The oxygen at 100 and a bubble worth 20 where the player is. *)
Definition bubbleAtPlayer : OxygenBubble.t :=
  OxygenBubble.mk 739 407 15 1 (Rgba 255 255 255 0.7) 20 0 false None.
Definition bubbleOnPlayer : Sys :=
  withGame (fun g => set_oxygenBubbles [bubbleAtPlayer] (set_oxygen 100 g)) started.

(** A bonus about to surface, with the oxygen at 100; and a bonus
    inside a hostile. *)
Definition risingBonus : OxygenBonus.t := OxygenBonus.mk 700 30.5 50 50 150 0 0.02 (-0.8) true 1 400.
Definition bonusNearSurface : Sys :=
  withGame (fun g => set_oxygenBonus [risingBonus] (set_oxygen 100 g)) started.
Definition deepBonus : OxygenBonus.t := OxygenBonus.mk 290 190 50 50 150 0 0.02 (-0.8) true 1 400.
Definition bonusInFish : Sys :=
  withGame (fun g => set_oxygenBonus [deepBonus] (set_enemies [smallFish]
    (upd_diver (Diver.set_comboCounter 2) g))) started.

(** Level 1 with a score of exactly 2000. *)
Definition atThreshold : Sys := withGame (set_score 2000) started.


(** Ten lives, and a heart resting where the player is. *)
Definition restingHeart : Heart.t :=
  Heart.mk 710 390 20 18 (Hex "#ff3377") 1 0 0.01 0 390 false.
Definition fullLives : Sys :=
  withGame (fun g => set_hearts [restingHeart] (set_playerLives 10 g)) started.

Lemma Forall_by_forallb {X : Type} (f : X -> bool) (l : list X) :
  forallb (fun x => negb (f x)) l = true -> Forall (fun x => f x = false) l.
Proof.
  intros H. apply Forall_forall. intros x Hx.
  rewrite forallb_forall in H. apply negb_true_iff, H, Hx.
Defined.

(** ** C1: the bounds, and a frame stamped before the key press *)

Definition afterOneFrame : Sys :=
  exec (handle randomHalf sinPoly cosPoly powLinear piApprox (Frame 16)) started.

Lemma started_forward :
  reachableForward randomHalf sinPoly cosPoly powLinear piApprox 0 started.
Proof.
  apply (forward_event randomHalf sinPoly cosPoly powLinear piApprox 0
           (initialSys 0) (KeyDown "Enter" 0)).
  - apply forward_initial.
  - exact I.
Defined.

Lemma afterOneFrame_forward :
  reachableForward randomHalf sinPoly cosPoly powLinear piApprox 0 afterOneFrame.
Proof.
  apply (forward_event randomHalf sinPoly cosPoly powLinear piApprox 0 started (Frame 16)
           started_forward).
  apply Qle_bool_imp_le. vm_compute. reflexivity.
Defined.

Example bounds_after_one_frame :
  0 <= oxygen (game afterOneFrame) <= MAX_OXYGEN /\
  (0 <= playerLives (game afterOneFrame) <= MAX_PLAYER_LIVES)%Z.
Proof.
  exact (bounds_while_clock_forward randomHalf sinPoly cosPoly powLinear piApprox
           randomHalf_unit 0 afterOneFrame afterOneFrame_forward).
Defined.

(** A key is pressed on the start screen while [performance.now()]
    reads 1000, so that [init] records [lastUpdateTime = 1000]; the
    animation frame requested by [init] is then delivered with the
    timestamp 998. *)
Definition keyAt1000 : Sys :=
  exec (handle randomHalf sinPoly cosPoly powLinear piApprox (KeyDown "Enter" 1000))
       (initialSys 0).

Definition earlyFrame : Sys :=
  exec (handle randomHalf sinPoly cosPoly powLinear piApprox (Frame 998)) keyAt1000.

(** C1, refuted by the code.  The claim wants the oxygen level between
    0 and MAX_OXYGEN after every tick.  [gameLoop] takes
    [deltaTime = timestamp - lastUpdateTime] as it comes: the frame
    stamped 998 after the key press at 1000 is a tick of the playing
    session with [deltaTime = -2], the depletion of that tick is
    negative, and [Math.max(0, ...)] only guards the lower bound: the
    oxygen level is above MAX_OXYGEN when the tick is over. *)
Theorem oxygen_above_max_after_early_frame :
  reachable randomHalf sinPoly cosPoly powLinear piApprox 0 earlyFrame /\
  lastUpdateTime (game keyAt1000) == 1000 /\
  oxygen (game keyAt1000) == MAX_OXYGEN /\
  gameStarted (game earlyFrame) = true /\
  gameOver (game earlyFrame) = false /\
  oxygen (game earlyFrame) == 300.008999997723 /\
  MAX_OXYGEN < oxygen (game earlyFrame).
Proof.
  split.
  { unfold earlyFrame, keyAt1000. do 2 apply reach_event. apply reach_initial. }
  repeat split; vm_compute; reflexivity.
Qed.

(** ** C2: the last life is lost *)

Definition afterLastBreath : Sys :=
  exec (updateOxygenBubbles randomHalf sinPoly cosPoly piApprox 16) lastBreath.

Lemma oxygen_exhaustion_witness :
  playerLives (game lastBreath) = 1%Z /\
  gameOver (game afterLastBreath) = true /\
  uiGameState (host afterLastBreath) = UiOver /\
  finalScore (host afterLastBreath) = score (game afterLastBreath).
Proof.
  unfold afterLastBreath.
  set (s' := exec (updateOxygenBubbles randomHalf sinPoly cosPoly piApprox 16) lastBreath).
  assert (H1 : oxygen (game (exec (oxygenAndBubbles randomHalf sinPoly cosPoly piApprox 16)
                               lastBreath)) <= 0).
  { apply Qle_bool_imp_le. vm_compute. reflexivity. }
  assert (H2 : gameStarted (game (exec (oxygenAndBubbles randomHalf sinPoly cosPoly piApprox 16)
                                    lastBreath)) = true).
  { vm_compute. reflexivity. }
  assert (H3 : gameOver (game (exec (oxygenAndBubbles randomHalf sinPoly cosPoly piApprox 16)
                                 lastBreath)) = false).
  { vm_compute. reflexivity. }
  assert (H4 : playerLives (game (exec (oxygenAndBubbles randomHalf sinPoly cosPoly piApprox 16)
                                    lastBreath)) = 1%Z).
  { vm_compute. reflexivity. }
  pose proof (oxygen_exhaustion randomHalf sinPoly cosPoly piApprox randomHalf_unit 16
                lastBreath H1 H2 H3) as (Hl & _ & Hend).
  fold s' in Hl, Hend.
  rewrite H4 in Hl.
  assert (Hle : (playerLives (game s') <= 0)%Z) by (rewrite Hl; discriminate).
  destruct (Hend Hle) as (G1 & G2 & G3 & G4).
  split; [ reflexivity | ]. split; [ exact G1 | ]. split; [ exact G2 | ].
  rewrite G3, G4. reflexivity.
Defined.

(** ** C3: a small fish killed by one harpoon *)



(** The same kill seen from the hostile subsystem as a whole: the fish
    leaves the collection, the harpoon is consumed, 25 * (2 + 1) points. *)
Example harpoon_kill_scenario :
  let s' := exec (updateEnemies randomHalf sinPoly cosPoly piApprox 16) fishUnderFire in
  enemies (game s') = [] /\ harpoons (game s') = [] /\
  score (game s') = 75%Z /\ combo s' = 3%Z /\
  Qeq_bool (Diver.comboTimer (diver (game s'))) 180 = true.
Proof. vm_compute. repeat split. Qed.

(** ** C4: one tick at the surface, and one with a bubble *)

(** At the surface of a fresh session no bubble is near the player and
    the tick of 16.7 ms leaves 299.9499; from [bubbleOnPlayer] the
    subsystem first lowers the oxygen from 100 to 99.92485 (the player is
    at half depth) and the bubble then adds its 20. *)
Lemma depth_scaled_depletion_witness :
  oxygen (game (exec (updateOxygenBubbles randomHalf sinPoly cosPoly piApprox 16.7) atSurface))
    == 299.9499 /\
  oxygen (game (exec (oxygenAndBubbles randomHalf sinPoly cosPoly piApprox 16.7) bubbleOnPlayer))
    == 99.92485 + 20.
Proof.
  split.
  - assert (Hm : bubblesMissed sinPoly (scaleOf 16.7) (diver (game atSurface))
                   (oxygenBubbles (game atSurface))).
    { apply Forall_by_forallb. vm_compute. reflexivity. }
    pose proof (depth_scaled_depletion randomHalf sinPoly cosPoly piApprox randomHalf_unit
                  16.7 atSurface) as (_ & _ & _ & _ & Hscenario).
    apply Hscenario; [ exact Hm | reflexivity .. ].
  - pose proof (depth_scaled_depletion randomHalf sinPoly cosPoly piApprox randomHalf_unit
                  16.7 bubbleOnPlayer) as (Hcollected & _).
    rewrite Hcollected. vm_compute. reflexivity.
Defined.

Definition afterBubble : Sys :=
  exec (update randomHalf sinPoly cosPoly powLinear piApprox 16.7) bubbleOnPlayer.

(** C4 as the specification states it fails: this tick of a playing
    session does not lower the oxygen by the depletion, it raises it
    from 100 to more than 119.  The depletion is there, but the bubble
    that the player touches adds 20 in the same subsystem. *)
Lemma oxygen_rises_with_a_bubble :
  gameStarted (game bubbleOnPlayer) = true /\ gameOver (game bubbleOnPlayer) = false /\
  oxygen (game bubbleOnPlayer) == 100 /\
  oxygenBubbles (game bubbleOnPlayer) = [bubbleAtPlayer] /\
  oxygenBubbles (game afterBubble) = [] /\
  119.92 < oxygen (game afterBubble) /\ oxygen (game afterBubble) < 119.93 /\
  oxygen (game bubbleOnPlayer) < oxygen (game afterBubble).
Proof.
  split; [ reflexivity | ]. split; [ reflexivity | ]. split; [ reflexivity | ].
  split; [ reflexivity | ].
  assert (H : oxygenBubbles (game afterBubble) = [] /\
              Qltb 119.92 (oxygen (game afterBubble)) = true /\
              Qltb (oxygen (game afterBubble)) 119.93 = true /\
              Qltb (oxygen (game bubbleOnPlayer)) (oxygen (game afterBubble)) = true).
  { vm_compute. repeat split. }
  destruct H as (H1 & H2 & H3 & H4).
  split; [ exact H1 | ]. split; [ apply Qltb_lt; exact H2 | ].
  split; apply Qltb_lt; assumption.
Qed.

(** ** C5: a frame after a pause *)

Lemma runaway_frame_skipped_witness :
  exec (gameLoop randomHalf sinPoly cosPoly powLinear piApprox 200) started =
    mkSys (set_animationFrameId (Some (S (frameRequests (host started))))
             (set_lastUpdateTime 200 (game started)))
          (set_frameRequests (S (frameRequests (host started))) (host started)).
Proof.
  apply (runaway_frame_skipped randomHalf sinPoly cosPoly powLinear piApprox 200 started).
  vm_compute. reflexivity.
Defined.

(** C5 as the specification states it ("no field of the world state
    is updated") fails: the game object after the skipped frame differs
    from the one before, in its last-update time. *)
Lemma runaway_frame_updates_clock :
  100 < 200 - lastUpdateTime (game started) /\
  lastUpdateTime (game started) = 0 /\
  lastUpdateTime (game (exec (gameLoop randomHalf sinPoly cosPoly powLinear piApprox 200)
                          started)) = 200 /\
  game (exec (gameLoop randomHalf sinPoly cosPoly powLinear piApprox 200) started)
    <> game started.
Proof.
  assert (H : lastUpdateTime (game (exec (gameLoop randomHalf sinPoly cosPoly powLinear
                                            piApprox 200) started)) = 200).
  { vm_compute. reflexivity. }
  split; [ vm_compute; reflexivity | ]. split; [ reflexivity | ]. split; [ exact H | ].
  intros E. rewrite E in H. discriminate H.
Qed.

(** ** C6: a bonus that surfaces, and a bonus destroyed by a hostile *)

Definition afterSurfacing : Sys :=
  exec (bonusBody randomHalf sinPoly cosPoly piApprox (scaleOf 16) risingBonus)
       bonusNearSurface.

Lemma bonus_outcomes_witness :
  eval (bonusBody randomHalf sinPoly cosPoly piApprox (scaleOf 16) risingBonus)
       bonusNearSurface = None /\
  oxygen (game afterSurfacing) == 300 /\
  score (game afterSurfacing) = 250%Z /\
  Diver.comboCounter (diver (game afterSurfacing)) = 1%Z.
Proof.
  unfold afterSurfacing.
  set (s' := exec (bonusBody randomHalf sinPoly cosPoly piApprox (scaleOf 16) risingBonus)
                  bonusNearSurface).
  pose proof (bonus_outcomes randomHalf sinPoly cosPoly piApprox randomHalf_unit (scaleOf 16)
                risingBonus bonusNearSurface) as (_ & Hsurface & _).
  fold s' in Hsurface.
  destruct Hsurface as (Hr & Ho & Hs & Hc & _).
  - apply Qle_bool_imp_le. vm_compute. reflexivity.
  - split; [ exact Hr | ]. split; [ rewrite Ho; vm_compute; reflexivity | ].
    split; [ exact Hs | exact Hc ].
Defined.

Definition afterBonusInFish : Sys :=
  exec (updateOxygenBonus randomHalf sinPoly cosPoly piApprox 16) bonusInFish.

(** C6 as the specification states it ("all three outcomes award score
    and increment the combo") fails on the hostile outcome: the bonus is
    removed, and score, combo counter and oxygen are what they were. *)

Lemma bonus_destroyed_without_reward :
  oxygenBonus (game bonusInFish) = [deepBonus] /\
  hitByEnemy (bonusMotion (scaleOf 16) deepBonus) (game bonusInFish) = true /\
  oxygenBonus (game afterBonusInFish) = [] /\
  score (game afterBonusInFish) = score (game bonusInFish) /\
  combo afterBonusInFish = combo bonusInFish /\
  oxygen (game afterBonusInFish) = oxygen (game bonusInFish).
Proof. vm_compute. repeat split. Qed.

(** ** C7: the threshold of level 1 *)

Lemma level_up_rule_witness :
  level (game atThreshold) = 1%Z /\ score (game atThreshold) = 2000%Z /\
  level (game (exec (updateLevel randomHalf piApprox) atThreshold)) = 2%Z.
Proof.
  pose proof (level_up_rule randomHalf piApprox randomHalf_unit atThreshold)
    as (_ & _ & _ & _ & Hdet).
  split; [ reflexivity | ]. split; [ reflexivity | ].
  apply (Hdet 1%Z); reflexivity.
Defined.

(** ** C8: a treasure lands *)


(** ** C9: the combo counter *)

(** One tick of 16 ms from [comboAndTreasure], subsystem by subsystem:
    the player subsystem keeps the counter at 3 (its timer is far from
    0); the treasure subsystem raises it to 4 and the score with it; the
    hostile subsystem, with no hostile around, does not lower it; the
    oxygen subsystem resets it to 0 and takes a life. *)
Lemma combo_transitions_witness :
  combo comboAndTreasure = 3%Z /\
  combo (exec (updateDiver powLinear 16) comboAndTreasure) = 3%Z /\
  (combo (exec (updateTreasures randomHalf sinPoly cosPoly piApprox 16) comboAndTreasure) = 4%Z /\
   (score (game comboAndTreasure)
    < score (game (exec (updateTreasures randomHalf sinPoly cosPoly piApprox 16)
                        comboAndTreasure)))%Z) /\
  (3 <= combo (exec (updateEnemies randomHalf sinPoly cosPoly piApprox 16) comboAndTreasure))%Z /\
  (combo (exec (updateOxygenBubbles randomHalf sinPoly cosPoly piApprox 16) comboAndTreasure)
   = 0%Z /\
   playerLives (game (exec (updateOxygenBubbles randomHalf sinPoly cosPoly piApprox 16)
                           comboAndTreasure)) = 1%Z).
Proof.
  pose proof (combo_transitions randomHalf sinPoly cosPoly powLinear piApprox randomHalf_unit
                16 comboAndTreasure) as H.
  destruct H as (Hdiver & _ & _ & _ & _ & Hpickup & Henemy & Hoxygen).
  - discriminate.
  - repeat constructor. unfold treasureOk. cbn. lia.
  - split; [ reflexivity | ]. split; [ | split; [ | split ] ].
    + cbv zeta in Hdiver. destruct Hdiver as [ Hkept | (_ & _ & Hexpired) ].
      * exact Hkept.
      * apply Qle_bool_iff in Hexpired. vm_compute in Hexpired. discriminate Hexpired.
    + destruct (Hpickup _ (or_introl eq_refl)) as (_ & _ & Hscore).
      assert (Hfour : combo (exec (updateTreasures randomHalf sinPoly cosPoly piApprox 16)
                                  comboAndTreasure) = 4%Z) by (vm_compute; reflexivity).
      split; [ exact Hfour | ]. apply Hscore. rewrite Hfour. reflexivity.
    + cbv zeta in Henemy. destruct Henemy as (_ & _ & Hcontact).
      destruct (Z.lt_ge_cases
                  (combo (exec (updateEnemies randomHalf sinPoly cosPoly piApprox 16)
                               comboAndTreasure)) 3) as [ Hlow | Hge ]; [ | exact Hge ].
      destruct (Hcontact Hlow) as [ _ Hex ].
      change (enemies (game comboAndTreasure)) with (@nil Enemy.t) in Hex. inversion Hex.
    + cbv zeta in Hoxygen. destruct Hoxygen as [ Hkept | (Hzero & Hlives & _) ].
      * vm_compute in Hkept. discriminate Hkept.
      * split; [ exact Hzero | exact Hlives ].
Defined.

Definition afterComboAtRisk : Sys :=
  exec (update randomHalf sinPoly cosPoly powLinear piApprox 16) comboAtRisk.

(** C9 as the specification states it fails: in this tick the counter
    falls from 3 to 0 although its timer does not run out and no hostile
    is around; the player ran out of oxygen and respawned. *)

Lemma combo_reset_by_respawn :
  combo comboAtRisk = 3%Z /\ combo afterComboAtRisk = 0%Z /\
  score (game afterComboAtRisk) = score (game comboAtRisk) /\
  playerLives (game comboAtRisk) = 2%Z /\ playerLives (game afterComboAtRisk) = 1%Z /\
  ~ timerExpires (scaleOf 16) comboAtRisk /\
  ~ hostileContact sinPoly (scaleOf 16) comboAtRisk.
Proof.
  assert (H : combo afterComboAtRisk = 0%Z /\
              score (game afterComboAtRisk) = score (game comboAtRisk) /\
              playerLives (game afterComboAtRisk) = 1%Z).
  { vm_compute. repeat split. }
  destruct H as (H1 & H2 & H3).
  split; [ reflexivity | ]. split; [ exact H1 | ]. split; [ exact H2 | ].
  split; [ reflexivity | ]. split; [ exact H3 | ]. split.
  - intros [ _ He ]. apply Qle_bool_iff in He. vm_compute in He. discriminate He.
  - intros [ _ He ]. change (enemies (game comboAtRisk)) with (@nil Enemy.t) in He.
    inversion He.
Qed.

(** ** C10: a heart met with ten lives *)

Definition afterFullLives : Sys :=
  exec (updateHearts randomHalf sinPoly cosPoly piApprox 16) fullLives.

Lemma hearts_at_max_lives_witness :
  hearts (game fullLives) = [restingHeart] /\
  hearts (game afterFullLives) = [] /\
  playerLives (game afterFullLives) = 10%Z /\
  score (game afterFullLives) = score (game fullLives) /\
  particles (game afterFullLives) = particles (game fullLives) /\
  exec (generateHeart randomHalf piApprox (100, 100)) fullLives = fullLives.
Proof.
  unfold afterFullLives.
  set (s' := exec (updateHearts randomHalf sinPoly cosPoly piApprox 16) fullLives).
  pose proof (hearts_at_max_lives randomHalf sinPoly cosPoly piApprox 16 fullLives) as H.
  destruct H as (E & (Hl & Hs & _ & _ & Hp) & Hg).
  - vm_compute. discriminate.
  - fold s' in E, Hl, Hs, Hp.
    split; [ reflexivity | ]. split; [ rewrite E; vm_compute; reflexivity | ].
    split; [ rewrite Hl; reflexivity | ]. split; [ exact Hs | ]. split; [ exact Hp | ].
    apply Hg.
Defined.
